(** * Shallow embedding of the TutUni document ingestion and retrieval pipeline

    Sources embedded here:
    - [backend/app/services/text_chunker.py]  (TextChunker)
    - [backend/app/services/background_processor.py] (BackgroundProcessor)
    - [backend/app/services/vector_service.py] (collections, adding and
      deleting embeddings, collection statistics)
    - [backend/app/services/ai_service.py] (AIService.retrieve_context,
      _format_context_chunks, _calculate_confidence_score)
    - [backend/app/models/document.py] (Document.mark_as_analyzed)

    Python strings are modelled as lists of ASCII characters; [len] is
    [length].  Python's [str.isspace] and the [\s] class of [re] agree on
    ASCII: tab, newline, vertical tab, form feed, carriage return, the four
    separators 0x1c-0x1f and space. *)

From Stdlib Require Import String Ascii ZArith QArith Arith Bool Lia.
From Stdlib Require Import Qminmax Lqa.
From Stdlib Require Import List.
Import ListNotations.
Open Scope nat_scope.
Open Scope list_scope.

(** ** Python values shared by all modules *)

Definition pystr := list ascii.

(** A string literal as a Python string. *)
Definition str (s : string) : pystr := list_ascii_of_string s.

(** [str(n)], or an [int] field of an f-string: its decimal digits, with a
    leading minus sign for a negative [int]. *)
Definition digit_char (n : nat) : ascii := ascii_of_nat (48 + n).

Fixpoint nat_digits (fuel n : nat) : pystr :=
  match fuel with
  | O => []
  | S f => if n <? 10 then [digit_char n]
           else nat_digits f (n / 10) ++ [digit_char (n mod 10)]
  end.

Definition str_nat (n : nat) : pystr := nat_digits (S n) n.

Definition str_Z (z : Z) : pystr :=
  if (z <? 0)%Z then "-"%char :: str_nat (Z.to_nat (Z.opp z)) else str_nat (Z.to_nat z).

(** An exception: its class name and [str(e)]. Every exception the code
    raises or catches here is a subclass of [Exception]. *)
Inductive exn := Exn (kind : string) (message : pystr).

Definition exn_message (e : exn) : pystr := let (_, m) := e in m.

(** Outcome of a Python call: a value or a raised exception. *)
Inductive result (A : Type) : Type :=
| Ok (a : A)
| Err (e : exn).
Arguments Ok {A} a.
Arguments Err {A} e.

Definition rbind {A B} (m : result A) (k : A -> result B) : result B :=
  match m with Ok a => k a | Err e => Err e end.

Notation "x <-? m ;; k" := (rbind m (fun x => k))
  (at level 61, m at next level, right associativity).

(** ** Characters *)

Definition is_space (c : ascii) : bool :=
  let n := nat_of_ascii c in
  ((9 <=? n) && (n <=? 13)) || ((28 <=? n) && (n <=? 32)).

Definition is_digit (c : ascii) : bool :=
  let n := nat_of_ascii c in (48 <=? n) && (n <=? 57).

Definition is_upper (c : ascii) : bool :=
  let n := nat_of_ascii c in (65 <=? n) && (n <=? 90).

Definition is_lower (c : ascii) : bool :=
  let n := nat_of_ascii c in (97 <=? n) && (n <=? 122).

Definition is_newline (c : ascii) : bool := Ascii.eqb c (ascii_of_nat 10).
Definition is_dot (c : ascii) : bool := Ascii.eqb c ".".
Definition is_punct (c : ascii) : bool :=
  Ascii.eqb c "." || Ascii.eqb c "!" || Ascii.eqb c "?".

Definition is_nil {A} (l : list A) : bool :=
  match l with [] => true | _ => false end.

(** [span p s]: the longest prefix of [s] whose characters satisfy [p], and
    the rest.  This is what a greedy [[class]+] or [[class]*] consumes. *)
Fixpoint span (p : ascii -> bool) (s : pystr) : pystr * pystr :=
  match s with
  | [] => ([], [])
  | c :: r => if p c then let (a, b) := span p r in (c :: a, b) else ([], s)
  end.

(** ** [str.strip] *)

Fixpoint lstrip (s : pystr) : pystr :=
  match s with
  | [] => []
  | c :: r => if is_space c then lstrip r else s
  end.

Definition rstrip (s : pystr) : pystr := rev (lstrip (rev s)).

Definition strip (s : pystr) : pystr := rstrip (lstrip s).

(** ** [re.sub] and [re.split] for patterns whose matches are never empty

    A matcher [m] tries the pattern at the head of the string and returns the
    remaining input after the leftmost-greedy match.  The fuel is the length
    of the input: every match consumes at least one character. *)

Fixpoint re_sub_fuel (m : pystr -> option pystr) (repl : pystr)
    (fuel : nat) (s : pystr) : pystr :=
  match fuel with
  | 0 => s
  | S f =>
      match s with
      | [] => []
      | c :: r =>
          match m s with
          | Some rest => repl ++ re_sub_fuel m repl f rest
          | None => c :: re_sub_fuel m repl f r
          end
      end
  end.

Definition re_sub (m : pystr -> option pystr) (repl s : pystr) : pystr :=
  re_sub_fuel m repl (length s) s.

Fixpoint re_split_fuel (m : pystr -> option pystr) (fuel : nat) (s : pystr)
    : list pystr :=
  match fuel with
  | 0 => [s]
  | S f =>
      match s with
      | [] => [[]]
      | c :: r =>
          match m s with
          | Some rest => [] :: re_split_fuel m f rest
          | None =>
              match re_split_fuel m f r with
              | p :: ps => (c :: p) :: ps
              | [] => [[c]]
              end
          end
      end
  end.

Definition re_split (m : pystr -> option pystr) (s : pystr) : list pystr :=
  re_split_fuel m (length s) s.

(** [s] from its last newline on (inclusive), if it has one. *)
Fixpoint from_last_newline (s : pystr) : option pystr :=
  match s with
  | [] => None
  | c :: r =>
      match from_last_newline r with
      | Some t => Some t
      | None => if is_newline c then Some s else None
      end
  end.

(** [\n\s*\n]: the greedy [\s*] backtracks to the last newline of the
    whitespace run that follows the first newline. *)
Definition blank_line_match (s : pystr) : option pystr :=
  match s with
  | c :: r =>
      if is_newline c then
        let (run, rest) := span is_space r in
        match from_last_newline run with
        | Some (_ :: t) => Some (t ++ rest)
        | _ => None
        end
      else None
  | [] => None
  end.

(** [[.!?]+\s+] *)
Definition sentence_end_match (s : pystr) : option pystr :=
  match s with
  | c :: r =>
      if is_punct c then
        let (_, r1) := span is_punct r in
        let (ws, r2) := span is_space r1 in
        if is_nil ws then None else Some r2
      else None
  | [] => None
  end.

(** [re.search(r'[.!?]\s+', s)]: the text after the first match. *)
Fixpoint search_boundary (s : pystr) : option pystr :=
  match s with
  | [] => None
  | c :: r =>
      if is_punct c then
        match r with
        | d :: r' => if is_space d then Some (lstrip r') else search_boundary r
        | [] => None
        end
      else search_boundary r
  end.

(** * TextChunker ([text_chunker.py]) *)
Module Chunker.

Inductive ChunkType := TITLE | PARAGRAPH | LIST_ITEM | QUOTE | FOOTNOTE.

(** The constructor arguments of [TextChunker]. *)
Record Config := mkConfig {
  chunk_size : nat;
  overlap_size : nat;
  min_chunk_size : nat;
  max_chunk_size : nat
}.

(** [TextChunker()] as instantiated by the singleton [text_chunker]. *)
Definition default_config : Config := mkConfig 1000 200 100 2000.

(** The chunk metadata dict: the keys set by [_create_chunks_from_paragraph],
    by [TextChunk.__post_init__] and by [_validate_and_cleanup_chunks]. *)
Record Metadata := mkMeta {
  md_document_id : Z;
  md_filename : pystr;
  md_paragraph_index : nat;
  md_word_count : nat;
  md_char_count : nat;
  md_chunk_type : ChunkType;
  md_final_counts : option (nat * nat)
}.

Record TextChunk := mkChunk {
  text : pystr;
  chunk_type : ChunkType;
  start_pos : nat;
  end_pos : nat;
  metadata : Metadata
}.

(** [len(s.split())] *)
Fixpoint count_words_from (in_word : bool) (s : pystr) : nat :=
  match s with
  | [] => 0
  | c :: r =>
      if is_space c then count_words_from false r
      else if in_word then count_words_from true r
      else S (count_words_from true r)
  end.

Definition count_words (s : pystr) : nat := count_words_from false s.

(** [TextChunk(...)]: the dataclass constructor followed by [__post_init__],
    which writes word count, char count and chunk type into the metadata. *)
Definition TextChunk_new (t : pystr) (ty : ChunkType) (s e : nat)
    (md : Metadata) : TextChunk :=
  mkChunk t ty s e
    (mkMeta (md_document_id md) (md_filename md) (md_paragraph_index md)
       (count_words t) (length t) ty (md_final_counts md)).

(** The literal metadata dict [{document_id, filename, paragraph_index}]. *)
Definition base_meta (doc : Z) (fname : pystr) (idx : nat) : Metadata :=
  mkMeta doc fname idx 0 0 PARAGRAPH None.

(** ** [_preprocess_text] *)

(** [re.sub(r'\s+', ' ', text)] *)
Fixpoint collapse_spaces (in_run : bool) (s : pystr) : pystr :=
  match s with
  | [] => []
  | c :: r =>
      if is_space c then
        if in_run then collapse_spaces true r else " "%char :: collapse_spaces true r
      else c :: collapse_spaces false r
  end.

(** [^\d+\s*$] with [re.MULTILINE], tried at a line start: the greedy [\s*]
    backtracks to the end of the string or to the last newline of the
    whitespace run. *)
Definition page_number_match (s : pystr) : option pystr :=
  let (ds, r) := span is_digit s in
  if is_nil ds then None
  else
    let (run, rest) := span is_space r in
    match rest with
    | [] => Some []
    | _ => match from_last_newline run with
           | Some t => Some (t ++ rest)
           | None => None
           end
    end.

(** [re.sub(r'^\d+\s*$', '', text, flags=re.MULTILINE)]; [bol] says whether
    the current position is at a line start of the original string. *)
Fixpoint sub_page_numbers_fuel (bol : bool) (fuel : nat) (s : pystr) : pystr :=
  match fuel with
  | 0 => s
  | S f =>
      match s with
      | [] => []
      | c :: r =>
          match (if bol then page_number_match s else None) with
          | Some rest =>
              let consumed := firstn (length s - length rest) s in
              let bol' := match rev consumed with
                          | d :: _ => is_newline d
                          | [] => false
                          end in
              sub_page_numbers_fuel bol' f rest
          | None => c :: sub_page_numbers_fuel (is_newline c) f r
          end
      end
  end.

Definition sub_page_numbers (s : pystr) : pystr :=
  sub_page_numbers_fuel true (length s) s.

(** [re.sub(r'[.]{3,}', '...', text)] *)
Fixpoint sub_dots_fuel (fuel : nat) (s : pystr) : pystr :=
  match fuel with
  | 0 => s
  | S f =>
      match s with
      | [] => []
      | c :: r =>
          if is_dot c then
            let (ds, rest) := span is_dot s in
            if 3 <=? length ds then str "..." ++ sub_dots_fuel f rest
            else ds ++ sub_dots_fuel f rest
          else c :: sub_dots_fuel f r
      end
  end.

Definition sub_dots (s : pystr) : pystr := sub_dots_fuel (length s) s.

Definition newline2 : pystr := [ascii_of_nat 10; ascii_of_nat 10].

Definition _preprocess_text (t : pystr) : pystr :=
  let t1 := collapse_spaces false t in
  let t2 := re_sub blank_line_match newline2 t1 in
  let t3 := sub_page_numbers t2 in
  let t4 := sub_dots t3 in
  strip t4.

(** ** [_split_into_paragraphs] *)

Definition _split_into_paragraphs (t : pystr) : list pystr :=
  filter (fun p => negb (is_nil p) && (20 <? length p))
    (map strip (re_split blank_line_match t)).

(** ** [_detect_chunk_type] *)

(** [$] without [re.MULTILINE] also matches just before a final newline. *)
Definition dollar (full : pystr -> bool) (s : pystr) : bool :=
  full s ||
  (match rev s with
   | c :: _ => is_newline c && full (removelast s)
   | [] => false
   end).

(** [s] starts with whitespace (a [\s+] that may stop anywhere after it). *)
Definition starts_space (s : pystr) : bool :=
  match s with c :: _ => is_space c | [] => false end.

Definition strip_prefix (k s : pystr) : option pystr :=
  if list_eq_dec ascii_dec (firstn (length k) s) k
  then Some (skipn (length k) s) else None.

(** [^[A-Z][A-Z\s]+$] *)
Definition all_caps_full (s : pystr) : bool :=
  match s with
  | c :: r => is_upper c && negb (is_nil r) &&
              forallb (fun x => is_upper x || is_space x) r
  | [] => false
  end.

(** [^\d+\.\s+[A-Z]] *)
Definition numbered_section (s : pystr) : bool :=
  let (ds, r) := span is_digit s in
  negb (is_nil ds) &&
  match r with
  | d :: r' => is_dot d &&
      (let (ws, r'') := span is_space r' in
       negb (is_nil ws) && match r'' with u :: _ => is_upper u | [] => false end)
  | [] => false
  end.

(** [^[A-Z][a-z]+(?:\s+[A-Z][a-z]+)*$] as an automaton. *)
Inductive tc_state := TcStart | TcCap | TcLower | TcSpace.

Fixpoint title_case_run (st : tc_state) (s : pystr) : bool :=
  match s with
  | [] => match st with TcLower => true | _ => false end
  | c :: r =>
      match st with
      | TcStart => is_upper c && title_case_run TcCap r
      | TcCap => is_lower c && title_case_run TcLower r
      | TcLower =>
          if is_lower c then title_case_run TcLower r
          else is_space c && title_case_run TcSpace r
      | TcSpace =>
          if is_space c then title_case_run TcSpace r
          else is_upper c && title_case_run TcCap r
      end
  end.

(** [^(?:k1|k2|k3)\s+\d+] *)
Definition keyword_number (kws : list string) (s : pystr) : bool :=
  existsb (fun k =>
    match strip_prefix (str k) s with
    | Some r => let (ws, r') := span is_space r in
                negb (is_nil ws) &&
                match r' with d :: _ => is_digit d | [] => false end
    | None => false
    end) kws.

Definition title_patterns : list (pystr -> bool) :=
  [ dollar all_caps_full;
    numbered_section;
    dollar (title_case_run TcStart);
    keyword_number ["Capitolo"; "Sezione"; "Parte"]%string;
    keyword_number ["Chapter"; "Section"; "Part"]%string ].

(** [^\s*[-•*]\s+]: the bullet [•] is outside ASCII and never occurs. *)
Definition bullet_item (s : pystr) : bool :=
  match lstrip s with
  | c :: r => (Ascii.eqb c "-" || Ascii.eqb c "*") && starts_space r
  | [] => false
  end.

(** [^\s*<class>+<sep>\s+] for the numbered and roman list patterns. *)
Definition run_then (cls : ascii -> bool) (sep : ascii) (s : pystr) : bool :=
  let (ds, r) := span cls (lstrip s) in
  negb (is_nil ds) &&
  match r with d :: r' => Ascii.eqb d sep && starts_space r' | [] => false end.

Definition is_roman (c : ascii) : bool :=
  Ascii.eqb c "I" || Ascii.eqb c "V" || Ascii.eqb c "X".

(** [^\s*[a-z]\)\s+] *)
Definition lettered_item (s : pystr) : bool :=
  match lstrip s with
  | c :: d :: r => is_lower c && Ascii.eqb d ")" && starts_space r
  | _ => false
  end.

Definition list_patterns : list (pystr -> bool) :=
  [ bullet_item; run_then is_digit "."; lettered_item; run_then is_roman "." ].

(** The double quote character. *)
Definition dquote : ascii := ascii_of_nat 34.

(** [^".*"$]: [.] does not match a newline. *)
Definition quoted_full (s : pystr) : bool :=
  match s with
  | q :: r =>
      Ascii.eqb q dquote &&
      match rev r with
      | q' :: m => Ascii.eqb q' dquote && forallb (fun x => negb (is_newline x)) m
      | [] => false
      end
  | [] => false
  end.

(** The French-quote pattern [^«.*»$] needs non-ASCII characters and never
    matches; the third pattern is textually the first one. *)
Definition quote_patterns : list (pystr -> bool) :=
  [ dollar quoted_full; dollar quoted_full ].

Definition footnote_patterns : list (pystr -> bool) :=
  [ (fun s => let (ds, r) := span is_digit s in negb (is_nil ds) && starts_space r);
    (fun s => match s with c :: r => Ascii.eqb c "*" && starts_space r | [] => false end) ].

Definition _detect_chunk_type (t : pystr) : ChunkType :=
  let s := strip t in
  if existsb (fun p => p s) title_patterns then TITLE
  else if existsb (fun p => p s) list_patterns then LIST_ITEM
  else if existsb (fun p => p s) quote_patterns then QUOTE
  else if existsb (fun p => p s) footnote_patterns then FOOTNOTE
  else PARAGRAPH.

(** ** [_split_into_sentences] *)

Definition _split_into_sentences (t : pystr) : list pystr :=
  filter (fun s => negb (is_nil s) && (10 <? length s))
    (map strip (re_split sentence_end_match t)).

(** ** [_create_chunks_from_paragraph] *)

Section Create.
Variable cfg : Config.
Variable chunk_type_ : ChunkType.
Variable document_id : Z.
Variable filename : pystr.

(** The loop over sentences; its state is [(chunks, current_chunk,
    current_start)]. *)
Fixpoint accumulate (sentences : list pystr) (chunks : list TextChunk)
    (current_chunk : pystr) (current_start : nat)
    : list TextChunk * pystr * nat :=
  match sentences with
  | [] => (chunks, current_chunk, current_start)
  | sentence :: rest =>
      if (chunk_size cfg <? length current_chunk + length sentence)
         && negb (is_nil current_chunk) then
        let c := TextChunk_new (strip current_chunk) chunk_type_ current_start
                   (current_start + length current_chunk)
                   (base_meta document_id filename (length chunks)) in
        accumulate rest (chunks ++ [c]) sentence (current_start + length (text c))
      else
        accumulate rest chunks
          (if is_nil current_chunk then sentence
           else current_chunk ++ " "%char :: sentence)
          current_start
  end.

Definition _create_chunks_from_paragraph (paragraph : pystr) (start_pos : nat)
    : list TextChunk :=
  if length paragraph <=? chunk_size cfg then
    [TextChunk_new paragraph chunk_type_ start_pos (start_pos + length paragraph)
       (base_meta document_id filename 0)]
  else
    let '(chunks, current_chunk, current_start) :=
      accumulate (_split_into_sentences paragraph) [] [] start_pos in
    if negb (is_nil current_chunk)
       && (min_chunk_size cfg <=? length (strip current_chunk)) then
      chunks ++ [TextChunk_new (strip current_chunk) chunk_type_ current_start
                   (current_start + length current_chunk)
                   (base_meta document_id filename (length chunks))]
    else chunks.

End Create.

(** ** [_apply_overlap] and [_get_overlap_text] *)

(** [text[-overlap_size:]]; Python's [text[-0:]] is the whole string. *)
Definition last_chars (t : pystr) (n : nat) : pystr :=
  if n =? 0 then t else skipn (length t - n) t.

Definition _get_overlap_text (t : pystr) (overlap_size : nat) : pystr :=
  if length t <=? overlap_size then t
  else
    let overlap_text := last_chars t overlap_size in
    match search_boundary overlap_text with
    | Some r => r
    | None => overlap_text
    end.

(** The [else] branch of the loop for chunk [i], [prev] being [chunks[i-1]]. *)
Definition overlap_one (cfg : Config) (prev chunk : TextChunk) : TextChunk :=
  let overlap_text := _get_overlap_text (text prev) (overlap_size cfg) in
  if is_nil overlap_text then chunk
  else TextChunk_new (overlap_text ++ " "%char :: text chunk) (chunk_type chunk)
         (start_pos chunk) (end_pos chunk) (metadata chunk).

Fixpoint overlap_rest (cfg : Config) (prev : TextChunk) (rest : list TextChunk)
    : list TextChunk :=
  match rest with
  | [] => []
  | c :: r => overlap_one cfg prev c :: overlap_rest cfg c r
  end.

Definition _apply_overlap (cfg : Config) (chunks : list TextChunk)
    : list TextChunk :=
  if length chunks <=? 1 then chunks
  else match chunks with
       | [] => []
       | c0 :: rest => c0 :: overlap_rest cfg c0 rest
       end.

(** ** [_validate_and_cleanup_chunks] *)

(** One iteration of the loop: [None] for [continue]. *)
Definition cleanup (cfg : Config) (c : TextChunk) : option TextChunk :=
  if length (strip (text c)) <? min_chunk_size cfg then None
  else
    let t1 := if max_chunk_size cfg <? length (text c)
              then firstn (max_chunk_size cfg) (text c) else text c in
    let t2 := strip t1 in
    let md := metadata c in
    Some (mkChunk t2 (chunk_type c) (start_pos c) (end_pos c)
            (mkMeta (md_document_id md) (md_filename md) (md_paragraph_index md)
               (md_word_count md) (md_char_count md) (md_chunk_type md)
               (Some (count_words t2, length t2)))).

Fixpoint _validate_and_cleanup_chunks (cfg : Config) (chunks : list TextChunk)
    : list TextChunk :=
  match chunks with
  | [] => []
  | c :: r =>
      match cleanup cfg c with
      | Some c' => c' :: _validate_and_cleanup_chunks cfg r
      | None => _validate_and_cleanup_chunks cfg r
      end
  end.

(** ** [chunk_text]

    The body of the [try] calls the helper methods in turn; any of them
    raising an exception sends control to [except Exception], which returns
    the empty list.  [Steps] collects the helper methods as calls that may
    raise; [real_steps] are the methods above, which return normally. *)

Record Steps := mkSteps {
  preprocess : pystr -> result pystr;
  split_paragraphs : pystr -> result (list pystr);
  detect : pystr -> result ChunkType;
  create : pystr -> nat -> ChunkType -> Z -> pystr -> result (list TextChunk);
  apply_overlap : list TextChunk -> result (list TextChunk);
  validate : list TextChunk -> result (list TextChunk)
}.

Definition real_steps (cfg : Config) : Steps :=
  mkSteps (fun t => Ok (_preprocess_text t))
          (fun t => Ok (_split_into_paragraphs t))
          (fun p => Ok (_detect_chunk_type p))
          (fun p pos ty doc fname =>
             Ok (_create_chunks_from_paragraph cfg ty doc fname p pos))
          (fun cs => Ok (_apply_overlap cfg cs))
          (fun cs => Ok (_validate_and_cleanup_chunks cfg cs)).

(** The [for paragraph in paragraphs] loop with [current_position]. *)
Fixpoint paragraph_loop (st : Steps) (cfg : Config) (document_id : Z)
    (filename : pystr) (paragraphs : list pystr) (current_position : nat)
    : result (list TextChunk) :=
  match paragraphs with
  | [] => Ok []
  | paragraph :: rest =>
      if length (strip paragraph) <? min_chunk_size cfg then
        paragraph_loop st cfg document_id filename rest current_position
      else
        ty <-? detect st paragraph ;;
        para_chunks <-? create st paragraph current_position ty document_id filename ;;
        more <-? paragraph_loop st cfg document_id filename rest
                   (current_position + length paragraph) ;;
        Ok (para_chunks ++ more)
  end.

Definition chunk_text_body (st : Steps) (cfg : Config) (t : pystr)
    (document_id : Z) (filename : pystr) : result (list TextChunk) :=
  t' <-? preprocess st t ;;
  paragraphs <-? split_paragraphs st t' ;;
  chunks <-? paragraph_loop st cfg document_id filename paragraphs 0 ;;
  chunks' <-? apply_overlap st chunks ;;
  validate st chunks'.

Definition chunk_text_with (st : Steps) (cfg : Config) (t : pystr)
    (document_id : Z) (filename : pystr) : list TextChunk :=
  match chunk_text_body st cfg t document_id filename with
  | Ok chunks => chunks
  | Err _ => []
  end.

Definition chunk_text (cfg : Config) (t : pystr) (document_id : Z)
    (filename : pystr) : list TextChunk :=
  chunk_text_with (real_steps cfg) cfg t document_id filename.

(** The chunks before overlap, as built by the paragraph loop. *)
Fixpoint pre_overlap_loop (cfg : Config) (document_id : Z) (filename : pystr)
    (paragraphs : list pystr) (current_position : nat) : list TextChunk :=
  match paragraphs with
  | [] => []
  | paragraph :: rest =>
      if length (strip paragraph) <? min_chunk_size cfg then
        pre_overlap_loop cfg document_id filename rest current_position
      else
        _create_chunks_from_paragraph cfg (_detect_chunk_type paragraph)
          document_id filename paragraph current_position
        ++ pre_overlap_loop cfg document_id filename rest
             (current_position + length paragraph)
  end.

Definition pre_overlap_chunks (cfg : Config) (t : pystr) (document_id : Z)
    (filename : pystr) : list TextChunk :=
  pre_overlap_loop cfg document_id filename
    (_split_into_paragraphs (_preprocess_text t)) 0.

(** ** [get_chunk_metadata] *)

(** [ChunkType.value] *)
Definition chunk_type_value (t : ChunkType) : string :=
  match t with
  | TITLE => "title"
  | PARAGRAPH => "paragraph"
  | LIST_ITEM => "list_item"
  | QUOTE => "quote"
  | FOOTNOTE => "footnote"
  end.

(** The dict returned for a non-empty list; the two averages are Python
    floats, read here as exact rationals. *)
Record ChunkStats := mkChunkStats {
  total_chunks : nat;
  avg_word_count : Q;
  avg_char_count : Q;
  min_word_count : nat;
  max_word_count : nat;
  chunk_types : list (string * nat)
}.

(** [chunk_types[k] = chunk_types.get(k, 0) + 1] on an insertion-ordered
    dict. *)
Fixpoint count_type (k : string) (m : list (string * nat)) : list (string * nat) :=
  match m with
  | [] => [(k, 1)]
  | (k', n) :: r => if String.eqb k' k then (k', S n) :: r else (k', n) :: count_type k r
  end.

Definition nat_to_Q (n : nat) : Q := inject_Z (Z.of_nat n).

(** [sum(xs) / len(xs) if xs else 0] *)
Definition average (xs : list nat) : Q :=
  match xs with
  | [] => 0
  | _ => nat_to_Q (list_sum xs) / nat_to_Q (length xs)
  end.

(** [min(xs) if xs else 0] and [max(xs) if xs else 0] *)
Definition list_min (xs : list nat) : nat :=
  match xs with x :: r => fold_left Nat.min r x | [] => 0 end.
Definition list_max (xs : list nat) : nat :=
  match xs with x :: r => fold_left Nat.max r x | [] => 0 end.

(** [get_chunk_metadata]: [None] stands for the empty dict [{}]. *)
Definition get_chunk_metadata (chunks : list TextChunk) : option ChunkStats :=
  match chunks with
  | [] => None
  | _ =>
      let word_counts := map (fun c => md_word_count (metadata c)) chunks in
      let char_counts := map (fun c => md_char_count (metadata c)) chunks in
      let chunk_types_ := fold_left (fun m c => count_type (chunk_type_value (chunk_type c)) m)
                            chunks [] in
      Some (mkChunkStats (length chunks) (average word_counts) (average char_counts)
              (list_min word_counts) (list_max word_counts) chunk_types_)
  end.

End Chunker.

(** * BackgroundProcessor ([background_processor.py]) with the Document
    model and the vector service calls it makes *)
Module Pipeline.
Import Chunker.

Inductive DocumentStatus := UPLOADED | PROCESSING | PROCESSED | ANALYZED | ERROR.

Definition status_eqb (a b : DocumentStatus) : bool :=
  match a, b with
  | UPLOADED, UPLOADED | PROCESSING, PROCESSING | PROCESSED, PROCESSED
  | ANALYZED, ANALYZED | ERROR, ERROR => true
  | _, _ => false
  end.

(** The analysis dict returned by [ai_service.analyze_document].  The
    columns [central_thesis], [key_concepts], ... that [mark_as_analyzed]
    copies out of it are determined by it and are not kept separately. *)
Definition Analysis := list (string * pystr).

(** The columns of [Document] the pipeline reads or writes.  Timestamps
    ([datetime.now()], [func.now()]) are clock readings. *)
Record Document := mkDocument {
  doc_id : Z;
  project_id : Z;
  filename : pystr;
  original_filename : pystr;
  file_type : pystr;
  file_path : pystr;
  status : DocumentStatus;
  extracted_text : option pystr;
  page_count : option nat;
  is_analyzed : bool;
  analysis_result : option Analysis;
  analyzed_at : option nat;
  error_message : option pystr
}.

Definition set_status (d : Document) (s : DocumentStatus) : Document :=
  mkDocument (doc_id d) (project_id d) (filename d) (original_filename d)
    (file_type d) (file_path d) s (extracted_text d) (page_count d)
    (is_analyzed d) (analysis_result d) (analyzed_at d) (error_message d).

(** [Document.mark_as_analyzed] *)
Definition mark_as_analyzed (d : Document) (a : Analysis) (now : nat) : Document :=
  mkDocument (doc_id d) (project_id d) (filename d) (original_filename d)
    (file_type d) (file_path d) ANALYZED (extracted_text d) (page_count d)
    true (Some a) (Some now) (error_message d).

(** The metadata stored with each vector by [_store_embeddings]. *)
Record VectorMeta := mkVectorMeta {
  vm_chunk_id : nat;
  vm_document_id : Z;
  vm_project_id : Z;
  vm_filename : pystr;
  vm_file_type : pystr;
  vm_chunk_type : ChunkType;
  vm_start_pos : nat;
  vm_end_pos : nat;
  vm_created_at : nat
}.

Definition Embedding := list Q.

(** An entry of a Chroma collection; the collection is [project_{ve_project}]
    and the id [f"doc_{document_id}_chunk_{i}"] is given by [ve_id]. *)
Record VectorEntry := mkVectorEntry {
  ve_project : Z;
  ve_id : Z * nat;
  ve_document : pystr;
  ve_embedding : Embedding;
  ve_metadata : VectorMeta
}.

(** A queued job: the dict put on [processing_queue]. *)
Record Job := mkJob { job_document_id : Z; job_priority : Z; job_queued_at : nat }.

(** The state the pipeline acts on: the Document Store, the vector store, the
    sequence of committed document statuses, and the processor's queue,
    [current_tasks] keys and created tasks that have not run yet. *)
Record World := mkWorld {
  docs : list Document;
  collections : list Z;
  vectors : list VectorEntry;
  history : list (Z * DocumentStatus);
  queue : list Job;
  current_tasks : list Z;
  spawned : list Z
}.

(** ** A state and exception monad *)

Definition M (A : Type) := World -> result A * World.

Definition ret {A} (a : A) : M A := fun w => (Ok a, w).

Definition bind {A B} (m : M A) (k : A -> M B) : M B :=
  fun w => let (r, w') := m w in
           match r with Ok a => k a w' | Err e => (Err e, w') end.

Notation "x <- m ;; k" := (bind m (fun x => k))
  (at level 61, m at next level, right associativity).

Definition throw {A} (e : exn) : M A := fun w => (Err e, w).

Definition lift {A} (r : result A) : M A := fun w => (r, w).

(** [try: m except Exception as e: h(e)] *)
Definition try_except {A} (m : M A) (h : exn -> M A) : M A :=
  fun w => let (r, w') := m w in
           match r with Ok a => (Ok a, w') | Err e => h e w' end.

(** [try: m finally: f] *)
Definition try_finally {A} (m : M A) (f : M unit) : M A :=
  fun w => let (r, w') := m w in
           let (rf, w'') := f w' in
           match rf with Ok _ => (r, w'') | Err e => (Err e, w'') end.

Definition modify (f : World -> World) : M unit := fun w => (Ok tt, f w).

Definition with_docs (w : World) (ds : list Document) : World :=
  mkWorld ds (collections w) (vectors w) (history w) (queue w) (current_tasks w) (spawned w).
Definition with_vectors (w : World) (cs : list Z) (vs : list VectorEntry) : World :=
  mkWorld (docs w) cs vs (history w) (queue w) (current_tasks w) (spawned w).
Definition with_history (w : World) (h : list (Z * DocumentStatus)) : World :=
  mkWorld (docs w) (collections w) (vectors w) h (queue w) (current_tasks w) (spawned w).
Definition with_tasks (w : World) (q : list Job) (ct sp : list Z) : World :=
  mkWorld (docs w) (collections w) (vectors w) (history w) q ct sp.

Definition find_doc (id : Z) (ds : list Document) : option Document :=
  find (fun d => Z.eqb (doc_id d) id) ds.

(** [_get_document]: [select(Document).where(Document.id == id)]. *)
Definition _get_document (id : Z) : M (option Document) :=
  fun w => (Ok (find_doc id (docs w)), w).

(** The session's [document] object after its changes, written back by
    [db.commit()].  Each change to the object is followed by a commit, so the
    stored row and the object agree; commits are taken to succeed. *)
Definition replace_doc (d x : Document) : Document :=
  if Z.eqb (doc_id x) (doc_id d) then d else x.

Definition commit (d : Document) : M unit :=
  modify (fun w =>
    with_history (with_docs w (map (replace_doc d) (docs w)))
      (history w ++ [(doc_id d, status d)])).

(** ** Vector service *)

Definition get_or_create_collection (project : Z) : M unit :=
  modify (fun w =>
    if existsb (Z.eqb project) (collections w) then w
    else with_vectors w (collections w ++ [project]) (vectors w)).

Fixpoint zip3 {A B C} (xs : list A) (ys : list B) (zs : list C) : list (A * B * C) :=
  match xs, ys, zs with
  | x :: xs', y :: ys', z :: zs' => (x, y, z) :: zip3 xs' ys' zs'
  | _, _, _ => []
  end.

(** [collection.delete(where={"document_id": document_id})] *)
Definition delete_document_embeddings (project document : Z) : M bool :=
  _ <- get_or_create_collection project ;;
  _ <- modify (fun w => with_vectors w (collections w)
         (filter (fun v => negb (Z.eqb (ve_project v) project
                                 && Z.eqb (vm_document_id (ve_metadata v)) document))
                 (vectors w))) ;;
  ret true.

(** [delete_project_collection]: [client.delete_collection(name)] drops the
    collection and its entries, and raises when there is no collection of
    that name; the exception is logged and turned into [False]. *)
Definition delete_project_collection (project : Z) : M bool :=
  try_except
    (fun w =>
       if existsb (Z.eqb project) (collections w)
       then (Ok true,
             with_vectors w (filter (fun q => negb (Z.eqb q project)) (collections w))
               (filter (fun v => negb (Z.eqb (ve_project v) project)) (vectors w)))
       else (Err (Exn "ValueError"
                   (str "Collection project_" ++ str_Z project ++ str " does not exist.")), w))
    (fun _ => ret false).

(** [get_collection_stats]: the [total_chunks] and [collection_name] fields
    of the dict; [collection.count()] is the number of entries of the
    collection. *)
Definition get_collection_stats (project : Z) : M (nat * pystr) :=
  try_except
    (_ <- get_or_create_collection project ;;
     fun w => (Ok (length (filter (fun v => Z.eqb (ve_project v) project) (vectors w)),
                   str "project_" ++ str_Z project), w))
    (fun _ => ret (0, str "project_" ++ str_Z project)).

(** [async with get_async_session() as db]: [get_async_session] is an async
    generator function (a FastAPI dependency), so the object it returns has
    no [__aenter__]/[__aexit__] and the [async with] statement raises. *)
Definition enter_get_async_session : M unit :=
  throw (Exn "TypeError"
    (str "'async_generator' object does not support the asynchronous context manager protocol")).

(** [async with get_db() as db]: [get_db] is not defined or imported in
    [background_processor.py]. *)
Definition enter_get_db : M unit :=
  throw (Exn "NameError" (str "name 'get_db' is not defined")).


Section Collaborators.
(** The text extraction, semantic analysis and embedding collaborators and
    the clock. *)
Variable extract_text_from_pdf : pystr -> result (pystr * nat).
Variable extract_text_from_docx : pystr -> result (pystr * nat).
Variable analyze_document : pystr -> pystr -> result Analysis.
Variable generate_embeddings : list pystr -> result (list Embedding).
Variable now : nat.

(** [collection.add(...)]: ids already present are left as they are. *)
Definition collection_add (project document : Z) (chunks : list pystr)
    (metas : list VectorMeta) (embs : list Embedding) : M unit :=
  modify (fun w =>
    let fresh := map (fun '(i, (t, m, e)) => mkVectorEntry project (document, i) t e m)
                   (combine (seq 0 (length chunks)) (zip3 chunks metas embs)) in
    let fresh' := filter (fun v => negb (existsb (fun u =>
                     Z.eqb (ve_project u) project &&
                     Z.eqb (fst (ve_id u)) (fst (ve_id v)) &&
                     Nat.eqb (snd (ve_id u)) (snd (ve_id v))) (vectors w))) fresh in
    with_vectors w (collections w) (vectors w ++ fresh')).

(** [VectorService.add_document_embeddings]: every exception is logged and
    turned into [False]. *)
Definition add_document_embeddings (project document : Z) (chunks : list pystr)
    (metas : list VectorMeta) : M bool :=
  if is_nil chunks || is_nil metas then ret false
  else try_except
         (_ <- get_or_create_collection project ;;
          embs <- lift (generate_embeddings chunks) ;;
          _ <- collection_add project document chunks metas embs ;;
          ret true)
         (fun _ => ret false).

(** ** The stages of [_process_document] *)

Definition ascii_lower (c : ascii) : ascii :=
  if is_upper c then ascii_of_nat (nat_of_ascii c + 32) else c.

Definition is_pdf (d : Document) : bool :=
  if list_eq_dec ascii_dec (map ascii_lower (file_type d)) (str ".pdf") then true else false.
Definition is_docx (d : Document) : bool :=
  if list_eq_dec ascii_dec (map ascii_lower (file_type d)) (str ".docx") then true else false.

Definition extract_outcome (d : Document) : result (pystr * nat) :=
  if is_pdf d then extract_text_from_pdf (file_path d)
  else if is_docx d then extract_text_from_docx (file_path d)
  else Err (Exn "ValueError" (str "Unsupported file type: " ++ file_type d)).

Definition _extract_text (d : Document) : M (pystr * nat) :=
  lift (extract_outcome d).

(** [_chunk_text]: [chunk_text] of the singleton [text_chunker]. *)
Definition _chunk_text (d : Document) : M (list TextChunk) :=
  match extracted_text d with
  | Some t =>
      if is_nil t then throw (Exn "ValueError" (str "No extracted text available"))
      else ret (chunk_text default_config t (doc_id d) (filename d))
  | None => throw (Exn "ValueError" (str "No extracted text available"))
  end.

Definition chunk_vector_meta (d : Document) (i : nat) (c : TextChunk) : VectorMeta :=
  mkVectorMeta i (doc_id d) (project_id d) (filename d) (file_type d)
    (chunk_type c) (start_pos c) (end_pos c) now.

(** [_store_embeddings] *)
Definition _store_embeddings (d : Document) (chunks : list TextChunk) : M bool :=
  if is_nil chunks then ret false
  else
    let texts := map text chunks in
    let metas := map (fun '(i, c) => chunk_vector_meta d i c)
                   (combine (seq 0 (length chunks)) chunks) in
    try_except (add_document_embeddings (project_id d) (doc_id d) texts metas)
               (fun _ => ret false).

(** Step 3: the inner [try] around the semantic analysis; yields the
    session's document object afterwards. *)
Definition analysis_step (d : Document) (extracted : pystr) : M Document :=
  try_except
    (a <- lift (analyze_document extracted (original_filename d)) ;;
     let d' := mark_as_analyzed d a now in
     _ <- commit d' ;;
     ret d')
    (fun _ => ret d).

(** The body of the outer [try]. *)
Definition process_try (document_id : Z) : M unit :=
  od <- _get_document document_id ;;
  match od with
  | None => ret tt
  | Some d0 =>
      let d1 := set_status d0 PROCESSING in
      _ <- commit d1 ;;
      r <- _extract_text d1 ;;
      let (extracted, pages) := r in
      let d2 := mkDocument (doc_id d1) (project_id d1) (filename d1)
                  (original_filename d1) (file_type d1) (file_path d1) PROCESSED
                  (Some extracted) (Some pages) (is_analyzed d1)
                  (analysis_result d1) (analyzed_at d1) (error_message d1) in
      _ <- commit d2 ;;
      d3 <- analysis_step d2 extracted ;;
      chunks <- _chunk_text d3 ;;
      success <- _store_embeddings d3 chunks ;;
      if success then
        if status_eqb (status d3) ANALYZED then ret tt
        else commit (mkDocument (doc_id d3) (project_id d3) (filename d3)
                       (original_filename d3) (file_type d3) (file_path d3) ANALYZED
                       (extracted_text d3) (page_count d3) (is_analyzed d3)
                       (analysis_result d3) (Some now) (error_message d3))
      else throw (Exn "Exception" (str "Failed to store embeddings"))
  end.

(** The [except Exception as e] handler: [status = ERROR],
    [error_message = str(e)], commit. *)
Definition process_except (document_id : Z) (e : exn) : M unit :=
  od <- _get_document document_id ;;
  match od with
  | None => ret tt
  | Some d =>
      commit (mkDocument (doc_id d) (project_id d) (filename d)
                (original_filename d) (file_type d) (file_path d) ERROR
                (extracted_text d) (page_count d) (is_analyzed d)
                (analysis_result d) (analyzed_at d) (Some (exn_message e)))
  end.

(** The [finally] block. *)
Definition remove_current_task (document_id : Z) : M unit :=
  modify (fun w => with_tasks w (queue w)
                     (filter (fun k => negb (Z.eqb k document_id)) (current_tasks w))
                     (spawned w)).

(** What runs inside [async with ... as db]. *)
Definition process_in_session (document_id : Z) : M unit :=
  try_finally (try_except (process_try document_id) (process_except document_id))
              (remove_current_task document_id).

(** [_process_document], given how entering its [async with] behaves. *)
Definition process_document_with (enter_session : M unit) (document_id : Z) : M unit :=
  _ <- enter_session ;;
  process_in_session document_id.

(** [_process_document] as written. *)
Definition _process_document (document_id : Z) : M unit :=
  process_document_with enter_get_async_session document_id.

(** [queue_document_for_processing]: [processing_queue.put(...)]. *)
Definition queue_document_for_processing (document_id priority : Z) : M unit :=
  modify (fun w => with_tasks w (queue w ++ [mkJob document_id priority now])
                     (current_tasks w) (spawned w)).

(** One iteration of [_processing_loop]: take the next job (on an empty
    queue [wait_for] times out and the loop continues); skip it if its
    document is in [current_tasks], otherwise register
    [asyncio.create_task(self._process_document(id))] under its id.  The
    task runs later, when the loop yields. *)
Definition processing_loop_step : M unit :=
  fun w =>
    match queue w with
    | [] => (Ok tt, w)
    | j :: q =>
        let id := job_document_id j in
        if existsb (Z.eqb id) (current_tasks w) then (Ok tt, with_tasks w q (current_tasks w) (spawned w))
        else (Ok tt, with_tasks w q (current_tasks w ++ [id]) (spawned w ++ [id]))
    end.

(** The event loop runs the oldest created task.  An exception escaping a
    task is stored in the task object and reaches nobody. *)
Definition run_next_task : M unit :=
  fun w =>
    match spawned w with
    | [] => (Ok tt, w)
    | id :: rest =>
        let w0 := with_tasks w (queue w) (current_tasks w) rest in
        (Ok tt, snd (_process_document id w0))
    end.

(** The body of the [try] in [reprocess_document]. *)
Definition reprocess_try (document_id : Z) : M unit :=
  od <- _get_document document_id ;;
  match od with
  | None => ret tt
  | Some d =>
      _ <- delete_document_embeddings (project_id d) document_id ;;
      _ <- commit (mkDocument (doc_id d) (project_id d) (filename d)
                     (original_filename d) (file_type d) (file_path d) UPLOADED
                     None None (is_analyzed d) (analysis_result d) None None) ;;
      queue_document_for_processing document_id 1
  end.

(** [reprocess_document], given how entering its [async with] behaves. *)
Definition reprocess_document_with (enter_session : M unit) (document_id : Z) : M unit :=
  _ <- enter_session ;;
  try_except (reprocess_try document_id) (fun _ => ret tt).

(** [reprocess_document] as written. *)
Definition reprocess_document (document_id : Z) : M unit :=
  reprocess_document_with enter_get_db document_id.

End Collaborators.

End Pipeline.

(** * [AIService.retrieve_context] ([ai_service.py]) *)
Module Retrieval.

(** A Chroma metadata value. *)
Inductive MetaValue :=
| MInt (z : Z)
| MStr (s : pystr)
| MFloat (q : Q)
| MBool (b : bool).

Definition MetaDict := list (string * MetaValue).

(** [ChatContextChunk] ([schemas/chat.py]). *)
Record ChatContextChunk := mkContextChunk {
  cc_document_id : Z;
  cc_chunk_text : pystr;
  cc_similarity_score : Q;
  cc_metadata : MetaDict
}.

(** The dict returned by [search_similar_chunks]: one row per query
    embedding; [None] stands for a missing text or metadata. *)
Record SearchResults := mkSearchResults {
  sr_documents : list (list (option pystr));
  sr_metadatas : list (list (option MetaDict));
  sr_distances : list (list Q)
}.

Fixpoint dict_get (k : string) (m : MetaDict) : option MetaValue :=
  match m with
  | [] => None
  | (k', v) :: r => if String.eqb k k' then Some v else dict_get k r
  end.

(** [1.0 - distance if distance < 1.0 else 0.0] *)
Definition similarity_score (distance : Q) : Q :=
  if Qlt_le_dec distance 1 then 1 - distance else 0.

(** [row[0]], raising [IndexError] on an empty list. *)
Definition first_row {A} (rows : list A) : result A :=
  match rows with
  | r :: _ => Ok r
  | [] => Err (Exn "IndexError" (str "list index out of range"))
  end.

Definition pyzip3 {A B C} (xs : list A) (ys : list B) (zs : list C) : list (A * B * C) :=
  Pipeline.zip3 xs ys zs.

Section Retrieve.
(** Pydantic's validation of the [document_id: int] field. *)
Variable validate_int : MetaValue -> result Z.
(** [vector_service.search_similar_chunks(project_id, query, n_results)]; it
    catches its own errors and always returns the dict. *)
Variable search_similar_chunks : Z -> pystr -> nat -> SearchResults.

(** [ChatContextChunk(document_id=metadata.get('document_id', 0), ...)] *)
Definition context_document_id (metadata : MetaDict) : result Z :=
  match dict_get "document_id" metadata with
  | Some v => validate_int v
  | None => Ok 0%Z
  end.

(** The [for] loop over [zip(documents, metadatas, distances)]. *)
Fixpoint to_context_chunks (entries : list (option pystr * option MetaDict * Q))
    : result (list ChatContextChunk) :=
  match entries with
  | [] => Ok []
  | (doc_text, metadata, distance) :: rest =>
      match doc_text, metadata with
      | Some t, Some m =>
          if is_nil t || is_nil m then to_context_chunks rest
          else
            did <-? context_document_id m ;;
            more <-? to_context_chunks rest ;;
            Ok (mkContextChunk did t (similarity_score distance) m :: more)
      | _, _ => to_context_chunks rest
      end
  end.

Definition retrieve_context_body (project_id : Z) (query : pystr) (max_chunks : nat)
    : result (list ChatContextChunk) :=
  let search_results := search_similar_chunks project_id query max_chunks in
  if is_nil (sr_documents search_results) then Ok []
  else
    documents <-? first_row (sr_documents search_results) ;;
    metadatas <-? first_row (sr_metadatas search_results) ;;
    distances <-? first_row (sr_distances search_results) ;;
    to_context_chunks (pyzip3 documents metadatas distances).

Definition retrieve_context (project_id : Z) (query : pystr) (max_chunks : nat)
    : list ChatContextChunk :=
  match retrieve_context_body project_id query max_chunks with
  | Ok cs => cs
  | Err _ => []
  end.

End Retrieve.

(** The entries the loop walks over. *)
Definition result_entries (sr : SearchResults) : list (option pystr * option MetaDict * Q) :=
  match sr_documents sr, sr_metadatas sr, sr_distances sr with
  | d :: _, m :: _, s :: _ => pyzip3 d m s
  | _, _, _ => []
  end.

(** An entry the loop keeps: non-empty text and non-empty metadata. *)
Definition entry_kept (e : option pystr * option MetaDict * Q) : bool :=
  match e with
  | (Some t, Some m, _) => negb (is_nil t) && negb (is_nil m)
  | _ => false
  end.

(** [AIService._calculate_confidence_score]; Python floats are read as exact
    rationals. *)
Definition _calculate_confidence_score (context_chunks : list ChatContextChunk) : Q :=
  match context_chunks with
  | [] => 0
  | _ =>
      let n := inject_Z (Z.of_nat (length context_chunks)) in
      let avg_similarity :=
        fold_left Qplus (map cc_similarity_score context_chunks) 0 / n in
      let chunk_count_boost := Qmin (n / 5) 1 in
      let confidence := avg_similarity * (7 # 10) + chunk_count_boost * (3 # 10) in
      Qmin confidence 1
  end%Q.

(** [str.join("\n", parts)] *)
Fixpoint join_lines (parts : list pystr) : pystr :=
  match parts with
  | [] => []
  | [p] => p
  | p :: r => p ++ "010"%char :: join_lines r
  end.

(** [f"[Documento {chunk.document_id} - Sezione {i}]"] *)
Definition section_header (i : nat) (c : ChatContextChunk) : pystr :=
  str "[Documento " ++ str_Z (cc_document_id c) ++ str " - Sezione " ++ str_nat i ++ str "]".

(** [context_parts] as built by the loop over [enumerate(chunks, i)]. *)
Fixpoint context_parts (i : nat) (chunks : list ChatContextChunk) : list pystr :=
  match chunks with
  | [] => []
  | c :: r => section_header i c :: cc_chunk_text c :: [] :: context_parts (S i) r
  end.

(** [AIService._format_context_chunks] *)
Definition _format_context_chunks (chunks : list ChatContextChunk) : pystr :=
  match chunks with
  | [] => []
  | _ => join_lines (context_parts 1 chunks)
  end.

End Retrieval.

(** * Concrete inputs used by the statements below *)
Module Scenarios.
Import Chunker.

(** ["Introduzione. " * 5 + "A" * 1500] *)
Definition intro_input : pystr :=
  concat (repeat (str "Introduzione. ") 5) ++ repeat "A"%char 1500.

(** [TextChunker(chunk_size=1000, overlap_size=200, min_chunk_size=100)] *)
Definition intro_config : Config := mkConfig 1000 200 100 2000.

(** The first piece the paragraph splitter emits for [intro_input]. *)
Definition intro_head : pystr :=
  str "Introduzione Introduzione Introduzione Introduzione Introduzione".

(** A paragraph of three sentences of 800, 199 and 900 letters: the first
    chunk is the first two sentences, 1000 characters, and its last 200
    characters start with the space that joined them. *)
Definition spaced_input : pystr :=
  repeat "a"%char 800 ++ str ". " ++ repeat "b"%char 199 ++ str ". "
  ++ repeat "c"%char 900.

(** Helper methods of which [_preprocess_text] raises. *)
Definition failing_steps (cfg : Config) : Steps :=
  mkSteps (fun _ => Err (Exn "MemoryError" []))
          (split_paragraphs (real_steps cfg)) (detect (real_steps cfg))
          (create (real_steps cfg)) (apply_overlap (real_steps cfg))
          (validate (real_steps cfg)).

(** The string ends with a character that is not whitespace (so it is not
    empty and [rstrip] leaves it as it is). *)
Definition ends_solid (s : pystr) : bool :=
  match rev s with l :: _ => negb (is_space l) | [] => false end.

(** The default of [nth] on chunk lists. *)
Definition dummy_chunk : TextChunk := TextChunk_new [] PARAGRAPH 0 0 (base_meta 0 [] 0).

(** [" ".join(parts)] *)
Fixpoint join_space (parts : list pystr) : pystr :=
  match parts with
  | [] => []
  | [p] => p
  | p :: r => p ++ " "%char :: join_space r
  end.

(** [d.get(k)] on a dict with string keys. *)
Fixpoint assoc_get (k : string) (m : list (string * nat)) : option nat :=
  match m with
  | [] => None
  | (k', v) :: r => if String.eqb k k' then Some v else assoc_get k r
  end.

(** [s.split("\n")] *)
Fixpoint split_lines (s : pystr) : list pystr :=
  match s with
  | [] => [[]]
  | c :: r =>
      if Ascii.eqb c "010"%char then [] :: split_lines r
      else match split_lines r with
           | x :: xs => (c :: x) :: xs
           | [] => [[c]]
           end
  end.

(** The fields of a chunk other than its text. *)
Definition chunk_shape (c : TextChunk) :=
  (chunk_type c, start_pos c, end_pos c, md_document_id (metadata c),
   md_filename (metadata c), md_paragraph_index (metadata c)).

(** A chunk carries the given document id and filename in its metadata. *)
Definition tagged (doc : Z) (fname : pystr) (c : TextChunk) : Prop :=
  md_document_id (metadata c) = doc /\ md_filename (metadata c) = fname.

End Scenarios.

(** * Retrieval inputs *)
Module RetrievalScenarios.
Import Retrieval.

(** How a returned context chunk relates to the entry it comes from. *)
Definition chunk_of_entry (e : option pystr * option MetaDict * Q)
    (c : ChatContextChunk) : Prop :=
  match e with
  | (Some t, Some m, d) =>
      cc_chunk_text c = t /\ cc_metadata c = m
      /\ cc_similarity_score c == Qmax 0 (1 - d)
  | _ => False
  end.

(** Integer metadata values validate as [int]. *)
Definition validate_int_ints (v : MetaValue) : result Z :=
  match v with
  | MInt z => Ok z
  | _ => Err (Exn "ValidationError" (str "document_id"))
  end.

(** A query result with a kept entry at distance 1/4, one at distance 3/2, an
    entry with empty text and one without metadata. *)
Definition sample_search (_ : Z) (_ : pystr) (_ : nat) : SearchResults :=
  mkSearchResults
    [[Some (str "alpha"); Some (str "beta"); Some []; Some (str "delta")]]
    [[Some [("document_id", MInt 7)]%string; Some [("document_id", MInt 8)]%string;
      Some [("document_id", MInt 9)]%string; None]]
    [[1 # 4; 3 # 2; 0; 0]%Q].

(** Two context chunks, of documents 7 and -3. *)
Definition sample_context : list ChatContextChunk :=
  [mkContextChunk 7 (str "Introduzione al corso") (9 # 10) [];
   mkContextChunk (-3) (str "Seconda parte") (1 # 2) []].

End RetrievalScenarios.

(** * Pipeline inputs: an uploaded PDF and collaborators that succeed or
    raise *)
Module PipelineScenarios.
Import Chunker Pipeline.

(** Document 7 of project 1, just uploaded. *)
Definition uploaded_doc : Document :=
  mkDocument 7 1 (str "7_notes.pdf") (str "notes.pdf") (str ".pdf")
    (str "uploads/7_notes.pdf") UPLOADED None None false None None None.

Definition sample_analysis : Analysis := [("summary"%string, str "notes")].

(** Document 7 after a run whose analysis succeeded, with two vectors. *)
Definition analyzed_doc : Document :=
  mkDocument 7 1 (str "7_notes.pdf") (str "notes.pdf") (str ".pdf")
    (str "uploads/7_notes.pdf") ANALYZED (Some (str "notes")) (Some 1) true
    (Some sample_analysis) (Some 3) None.

Definition sample_meta (i : nat) : VectorMeta :=
  mkVectorMeta i 7 1 (str "7_notes.pdf") (str ".pdf") PARAGRAPH 0 0 3.

Definition world_with (ds : list Document) (vs : list VectorEntry) (q : list Job) : World :=
  mkWorld ds [1%Z] vs [] q [] [].

Definition uploaded_world : World := world_with [uploaded_doc] [] [].

Definition analyzed_world : World :=
  world_with [analyzed_doc]
    [mkVectorEntry 1 (7%Z, 0) (str "notes") [0%Q] (sample_meta 0);
     mkVectorEntry 1 (7%Z, 1) (str "more notes") [0%Q] (sample_meta 1)] [].

(** A queue holding one job for document 7. *)
Definition queued_world : World := world_with [uploaded_doc] [] [mkJob 7 1 0].

(** [document_processor.extract_text_from_pdf] returning [t] on one page. *)
Definition pdf_returning (t : pystr) (_ : pystr) : result (pystr * nat) := Ok (t, 1).

Definition docx_raising (_ : pystr) : result (pystr * nat) :=
  Err (Exn "PackageNotFoundError" (str "not a docx file")).

Definition analyze_ok (_ _ : pystr) : result Analysis := Ok sample_analysis.

Definition analyze_raising (_ _ : pystr) : result Analysis :=
  Err (Exn "AnalysisError" (str "model unavailable")).

Definition embed_ok (ts : list pystr) : result (list Embedding) :=
  Ok (map (fun _ => [0%Q]) ts).

Definition embed_raising (_ : list pystr) : result (list Embedding) :=
  Err (Exn "RuntimeError" (str "out of memory")).

(** The stored row of a document, its status and error message. *)
Definition row (id : Z) (w : World) : option (DocumentStatus * option pystr) :=
  option_map (fun d => (status d, error_message d)) (find_doc id (docs w)).

(** The key of a vector entry: its collection and its chunk id. *)
Definition vkey (v : VectorEntry) : Z * (Z * nat) := (ve_project v, ve_id v).

(** The processor's bookkeeping: no id twice in [current_tasks] or among
    the created tasks, and every created task registered in
    [current_tasks]. *)
Definition tasks_ok (w : World) : Prop :=
  NoDup (current_tasks w) /\ NoDup (spawned w) /\ incl (spawned w) (current_tasks w).

(** Every vector entry lies in an existing collection. *)
Definition store_ok (w : World) : Prop :=
  Forall (fun v => In (ve_project v) (collections w)) (vectors w).

(** Document 7 queued, registered in [current_tasks] and with a created
    task. *)
Definition busy_world : World :=
  mkWorld [uploaded_doc] [1%Z] [] [] [mkJob 7 1 0] [7%Z] [7%Z].

End PipelineScenarios.

(** * Properties of the text chunker *)
Module ChunkerFacts.
Import Chunker Scenarios.

(** ** C1 *)

(** Claim C1 (as stated, refuted): for the input
    ["Introduzione. " * 5 + "A" * 1500] with [chunk_size=1000],
    [overlap_size=200], [min_chunk_size=100], [chunk_text] does not return at
    least two chunks. *)
Lemma C1_intro_not_two_chunks :
  ~ (2 <= length (chunk_text intro_config intro_input 1%Z (str "doc.pdf"))).
Proof. vm_compute. lia. Qed.

(** Claim C1 (amended): for that input the paragraph splitter produces two
    pieces, the 64-character ["Introduzione Introduzione ..."] and the 1500
    ['A'] characters; final validation drops the first (below
    [min_chunk_size]), so [chunk_text] returns exactly one chunk, whose text
    is the whole first piece, a space, and the 1500 ['A'] characters. *)
Theorem C1_intro_single_chunk :
  map text (pre_overlap_chunks intro_config intro_input 1%Z (str "doc.pdf"))
    = [intro_head; repeat "A"%char 1500]
  /\ map text (chunk_text intro_config intro_input 1%Z (str "doc.pdf"))
    = [intro_head ++ " "%char :: repeat "A"%char 1500].
Proof. split; vm_compute; reflexivity. Qed.

(** ** C2 *)

(** Claim C2 (as stated, refuted): a 50-character paragraph, longer than 20,
    survives the paragraph split but is discarded before chunk creation, and
    a paragraph of exactly 20 characters, not shorter than 20, is discarded
    by the split. *)
Lemma C2_length_filters :
  _split_into_paragraphs (_preprocess_text (repeat "a"%char 50)) = [repeat "a"%char 50]
  /\ chunk_text default_config (repeat "a"%char 50) 1%Z (str "doc.pdf") = []
  /\ _split_into_paragraphs (repeat "a"%char 20) = [].
Proof. split; [|split]; vm_compute; reflexivity. Qed.

Lemma paragraph_loop_skips (cfg : Config) (doc : Z) (fname : pystr)
    (paragraphs : list pystr) (pos : nat) :
  paragraph_loop (real_steps cfg) cfg doc fname paragraphs pos
  = paragraph_loop (real_steps cfg) cfg doc fname
      (filter (fun p => min_chunk_size cfg <=? length (strip p)) paragraphs) pos.
Proof.
  revert pos; induction paragraphs as [|p ps IH]; intros pos; [reflexivity|].
  simpl. destruct (length (strip p) <? min_chunk_size cfg) eqn:Hlt.
  - rewrite Nat.ltb_lt in Hlt.
    replace (min_chunk_size cfg <=? length (strip p)) with false
      by (symmetry; apply Nat.leb_gt; exact Hlt).
    apply IH.
  - rewrite Nat.ltb_ge in Hlt.
    replace (min_chunk_size cfg <=? length (strip p)) with true
      by (symmetry; apply Nat.leb_le; exact Hlt).
    simpl. replace (length (strip p) <? min_chunk_size cfg) with false
      by (symmetry; apply Nat.ltb_ge; exact Hlt).
    rewrite IH. reflexivity.
Qed.

(** Claim C2 (amended): [_split_into_paragraphs] keeps exactly the stripped
    pieces of the blank-line split that are longer than 20 characters (so a
    piece of at most 20 characters is discarded); [chunk_text] then skips
    every paragraph whose stripped length is below [min_chunk_size], which
    is the same as running its loop on the paragraphs of at least
    [min_chunk_size] characters. *)
Theorem C2_paragraph_filters :
  (forall t p, In p (_split_into_paragraphs t) <->
     exists q, In q (re_split blank_line_match t) /\ p = strip q /\ 20 < length p)
  /\ (forall cfg doc fname paragraphs pos,
       paragraph_loop (real_steps cfg) cfg doc fname paragraphs pos
       = paragraph_loop (real_steps cfg) cfg doc fname
           (filter (fun p => min_chunk_size cfg <=? length (strip p)) paragraphs) pos).
Proof.
  split.
  - intros t p. unfold _split_into_paragraphs. rewrite filter_In, in_map_iff.
    split.
    + intros [[q [Hq Hin]] Hk]. apply andb_true_iff in Hk as [_ Hk].
      apply Nat.ltb_lt in Hk. exists q. auto.
    + intros [q [Hin [Hp Hl]]]. split; [exists q; auto|].
      apply andb_true_iff. split.
      * destruct p; [simpl in Hl; lia|reflexivity].
      * apply Nat.ltb_lt. exact Hl.
  - apply paragraph_loop_skips.
Qed.

(** ** C10 *)

(** Claim C10: whenever the body of [chunk_text]'s [try] raises, whichever
    helper raised, [chunk_text] returns the empty list, which is also what
    it returns for an empty document. *)
Theorem C10_chunk_text_catches (st : Steps) (cfg : Config) (t : pystr)
    (doc : Z) (fname : pystr) (e : exn)
    (Hraise : chunk_text_body st cfg t doc fname = Err e) :
  chunk_text_with st cfg t doc fname = []
  /\ chunk_text cfg [] doc fname = [].
Proof.
  split.
  - unfold chunk_text_with. rewrite Hraise. reflexivity.
  - reflexivity.
Qed.

Lemma C10_witness :
  chunk_text_body (failing_steps default_config) default_config intro_input 1%Z []
    = Err (Exn "MemoryError" [])
  /\ chunk_text_with (failing_steps default_config) default_config intro_input 1%Z [] = []
  /\ chunk_text default_config [] 1%Z [] = [].
Proof.
  split; [reflexivity|].
  apply (C10_chunk_text_catches (failing_steps default_config) default_config
           intro_input 1%Z [] (Exn "MemoryError" [])).
  reflexivity.
Defined.

Lemma lstrip_app a b :
  lstrip (a ++ b) = match lstrip a with [] => lstrip b | _ => lstrip a ++ b end.
Proof.
  induction a as [|c a IH]; [reflexivity|].
  simpl. destruct (is_space c); [exact IH|reflexivity].
Qed.

Lemma lstrip_suffix s : exists p, s = p ++ lstrip s.
Proof.
  induction s as [|c s [p Hp]]; [exists []; reflexivity|].
  simpl. destruct (is_space c).
  - exists (c :: p). simpl. rewrite <- Hp. reflexivity.
  - exists []. reflexivity.
Qed.

Lemma ends_solid_cons c r : r <> [] -> ends_solid (c :: r) = ends_solid r.
Proof.
  intros Hr. unfold ends_solid. simpl.
  destruct (rev r) as [|l t] eqn:E.
  - apply (f_equal (@rev ascii)) in E. rewrite rev_involutive in E. contradiction.
  - reflexivity.
Qed.

Lemma ends_solid_app x y : ends_solid y = true -> ends_solid (x ++ y) = true.
Proof.
  unfold ends_solid. rewrite rev_app_distr.
  destruct (rev y); [discriminate|]. simpl. exact (fun H => H).
Qed.

Lemma lstrip_solid s : ends_solid s = true -> ends_solid (lstrip s) = true.
Proof.
  induction s as [|c s IH]; [discriminate|].
  intros H. simpl. destruct (is_space c) eqn:Ec; [|exact H].
  destruct s as [|d s].
  - unfold ends_solid in H. simpl in H. rewrite Ec in H. discriminate.
  - apply IH. rewrite <- (ends_solid_cons c); [exact H|discriminate].
Qed.

Lemma rstrip_solid s : ends_solid s = true -> rstrip s = s.
Proof.
  unfold ends_solid, rstrip. destruct (rev s) as [|l t] eqn:E; [discriminate|].
  intros H. simpl. apply negb_true_iff in H. rewrite H, <- E, rev_involutive.
  reflexivity.
Qed.

Lemma strip_solid s : ends_solid s = true -> ends_solid (strip s) = true.
Proof.
  intros H. unfold strip. rewrite rstrip_solid; apply lstrip_solid; exact H.
Qed.

Lemma lstrip_head v c r : lstrip v = c :: r -> is_space c = false.
Proof.
  induction v as [|d v IH]; simpl; [discriminate|].
  destruct (is_space d) eqn:Ed; [exact IH|intros Hv; inversion Hv; subst; exact Ed].
Qed.

Lemma strip_nonnil_solid s : strip s <> [] -> ends_solid (strip s) = true.
Proof.
  unfold strip, rstrip. destruct (lstrip (rev (lstrip s))) as [|c r] eqn:E.
  - intros H. contradiction.
  - intros _. unfold ends_solid. rewrite rev_involutive.
    rewrite (lstrip_head _ _ _ E). reflexivity.
Qed.

Lemma suffix_solid p s : ends_solid (p ++ s) = true -> s <> [] -> ends_solid s = true.
Proof.
  unfold ends_solid. rewrite rev_app_distr. intros H Hs.
  destruct (rev s) as [|l t] eqn:E; [|exact H].
  apply (f_equal (@rev ascii)) in E. rewrite rev_involutive in E. contradiction.
Qed.

Lemma ends_solid_nonnil s : ends_solid s = true -> s <> [].
Proof. intros H E. subst s. discriminate. Qed.

Lemma split_paragraphs_solid t p :
  In p (_split_into_paragraphs t) -> ends_solid p = true.
Proof.
  unfold _split_into_paragraphs. rewrite filter_In, in_map_iff.
  intros [[q [Hq _]] Hk]. subst p. apply strip_nonnil_solid.
  intros E. rewrite E in Hk. discriminate.
Qed.

Lemma split_sentences_solid t s :
  In s (_split_into_sentences t) -> ends_solid s = true.
Proof.
  unfold _split_into_sentences. rewrite filter_In, in_map_iff.
  intros [[q [Hq _]] Hk]. subst s. apply strip_nonnil_solid.
  intros E. rewrite E in Hk. discriminate.
Qed.

Lemma accumulate_solid cfg ty doc fname sentences chunks cur start :
  Forall (fun s => ends_solid s = true) sentences ->
  Forall (fun c => ends_solid (text c) = true) chunks ->
  is_nil cur = true \/ ends_solid cur = true ->
  let '(cs, cur', _) := accumulate cfg ty doc fname sentences chunks cur start in
  Forall (fun c => ends_solid (text c) = true) cs
  /\ (is_nil cur' = true \/ ends_solid cur' = true).
Proof.
  revert chunks cur start.
  induction sentences as [|s ss IH]; intros chunks cur start Hs Hc Hcur; [simpl; auto|].
  inversion Hs as [|? ? Hs1 Hss]; subst. simpl.
  destruct ((chunk_size cfg <? length cur + length s) && negb (is_nil cur)) eqn:Eb.
  - apply IH; [exact Hss| |right; exact Hs1].
    apply Forall_app. split; [exact Hc|]. constructor; [|constructor].
    simpl. apply strip_solid.
    apply andb_true_iff in Eb as [_ Eb]. destruct Hcur as [Hn|Hn]; [|exact Hn].
    rewrite Hn in Eb. discriminate.
  - apply IH; [exact Hss|exact Hc|right].
    destruct (is_nil cur); [exact Hs1|].
    replace (cur ++ " "%char :: s) with ((cur ++ [" "%char]) ++ s)
      by (rewrite <- app_assoc; reflexivity).
    apply ends_solid_app. exact Hs1.
Qed.

Lemma create_solid cfg ty doc fname p pos c :
  ends_solid p = true ->
  In c (_create_chunks_from_paragraph cfg ty doc fname p pos) ->
  ends_solid (text c) = true.
Proof.
  intros Hp. unfold _create_chunks_from_paragraph.
  destruct (length p <=? chunk_size cfg).
  - intros [Hc|[]]. subst c. exact Hp.
  - pose proof (accumulate_solid cfg ty doc fname (_split_into_sentences p) [] [] pos) as Ha.
    destruct (accumulate cfg ty doc fname (_split_into_sentences p) [] [] pos)
      as [[cs cur] st].
    destruct Ha as [Hcs Hcur].
    + apply Forall_forall. intros s. apply split_sentences_solid.
    + constructor.
    + left. reflexivity.
    + rewrite Forall_forall in Hcs.
      destruct (negb (is_nil cur) && (min_chunk_size cfg <=? length (strip cur))) eqn:Eb.
      * intros Hin. apply in_app_or in Hin as [Hin|[Hc|[]]]; [apply Hcs; exact Hin|].
        subst c. simpl. apply strip_solid.
        apply andb_true_iff in Eb as [Eb _]. destruct Hcur as [Hn|Hn]; [|exact Hn].
        rewrite Hn in Eb. discriminate.
      * apply Hcs.
Qed.

Lemma pre_overlap_loop_solid cfg doc fname ps pos c :
  Forall (fun p => ends_solid p = true) ps ->
  In c (pre_overlap_loop cfg doc fname ps pos) -> ends_solid (text c) = true.
Proof.
  revert pos. induction ps as [|p ps IH]; intros pos Hps; [intros []|].
  inversion Hps as [|? ? Hp Hps']; subst. simpl.
  destruct (length (strip p) <? min_chunk_size cfg); [apply IH; exact Hps'|].
  intros Hin. apply in_app_or in Hin as [Hin|Hin].
  - eapply create_solid; [exact Hp|exact Hin].
  - eapply IH; [exact Hps'|exact Hin].
Qed.

Lemma pre_overlap_chunks_solid cfg t doc fname c :
  In c (pre_overlap_chunks cfg t doc fname) -> ends_solid (text c) = true.
Proof.
  apply pre_overlap_loop_solid. apply Forall_forall. intros p.
  apply split_paragraphs_solid.
Qed.

Lemma search_boundary_suffix w r :
  search_boundary w = Some r -> ends_solid w = true ->
  ends_solid r = true /\ exists p, w = p ++ r.
Proof.
  revert r. induction w as [|c w IH]; intros r; [discriminate|].
  simpl. destruct w as [|d w'].
  - destruct (is_punct c); discriminate.
  - intros Hs Hw. rewrite ends_solid_cons in Hw by discriminate.
    assert (Hrec : search_boundary (d :: w') = Some r ->
                   ends_solid r = true /\ exists p, c :: d :: w' = p ++ r).
    { intros Hs'. destruct (IH r Hs' Hw) as [Hr [p Hp]].
      split; [exact Hr|]. exists (c :: p). rewrite Hp. reflexivity. }
    destruct (is_punct c); [|exact (Hrec Hs)].
    destruct (is_space d) eqn:Ed; [|exact (Hrec Hs)].
    inversion Hs; subst r.
    destruct w' as [|e w''].
    + unfold ends_solid in Hw. simpl in Hw. rewrite Ed in Hw. discriminate.
    + rewrite ends_solid_cons in Hw by discriminate.
      split; [apply lstrip_solid; exact Hw|].
      destruct (lstrip_suffix (e :: w'')) as [p Hp].
      exists (c :: d :: p).
      change ((c :: d :: p) ++ lstrip (e :: w'')) with (c :: d :: (p ++ lstrip (e :: w''))).
      rewrite <- Hp. reflexivity.
Qed.

Lemma overlap_text_suffix t n :
  ends_solid t = true -> 0 < n ->
  let ov := _get_overlap_text t n in
  ends_solid ov = true /\ (exists p, t = p ++ ov) /\ length ov <= n.
Proof.
  intros Ht Hn. unfold _get_overlap_text.
  destruct (length t <=? n) eqn:Hle.
  - apply Nat.leb_le in Hle. split; [exact Ht|]. split; [exists []; reflexivity|exact Hle].
  - apply Nat.leb_gt in Hle.
    unfold last_chars. replace (n =? 0) with false by (symmetry; apply Nat.eqb_neq; lia).
    set (k := length t - n).
    assert (Hsplit : t = firstn k t ++ skipn k t) by (symmetry; apply firstn_skipn).
    assert (Hlen : length (skipn k t) = n) by (rewrite length_skipn; unfold k; lia).
    assert (Hw : ends_solid (skipn k t) = true).
    { apply (suffix_solid (firstn k t)); [rewrite <- Hsplit; exact Ht|].
      intros E. rewrite E in Hlen. simpl in Hlen. lia. }
    destruct (search_boundary (skipn k t)) as [r|] eqn:Es.
    + destruct (search_boundary_suffix _ _ Es Hw) as [Hr [p Hp]].
      split; [exact Hr|]. split.
      * exists (firstn k t ++ p). rewrite <- app_assoc, <- Hp. exact Hsplit.
      * rewrite <- Hlen, Hp, length_app. lia.
    + split; [exact Hw|]. split; [exists (firstn k t); exact Hsplit|lia].
Qed.

Lemma rstrip_app_solid x y :
  ends_solid x = true -> exists z, rstrip (x ++ y) = x ++ z.
Proof.
  intros Hx. unfold rstrip. rewrite rev_app_distr, lstrip_app.
  destruct (lstrip (rev y)) as [|c r] eqn:E.
  - exists []. rewrite app_nil_r. fold (rstrip x). apply rstrip_solid. exact Hx.
  - exists (rev (c :: r)). rewrite <- E, rev_app_distr, rev_involutive. reflexivity.
Qed.

Lemma cleanup_overlap_prefix cfg prev cur c' :
  0 < overlap_size cfg <= max_chunk_size cfg ->
  ends_solid (text prev) = true ->
  cleanup cfg (overlap_one cfg prev cur) = Some c' ->
  exists r, text c' = lstrip (_get_overlap_text (text prev) (overlap_size cfg)) ++ r.
Proof.
  intros Hn Hp.
  destruct (overlap_text_suffix (text prev) (overlap_size cfg) Hp ltac:(lia))
    as [Hov [_ Hlen]].
  set (ov := _get_overlap_text (text prev) (overlap_size cfg)) in *.
  assert (Hl : ends_solid (lstrip ov) = true) by (apply lstrip_solid; exact Hov).
  unfold overlap_one. fold ov.
  replace (is_nil ov) with false
    by (destruct ov; [discriminate|reflexivity]).
  unfold cleanup. simpl.
  destruct (length (strip (ov ++ " "%char :: text cur)) <? min_chunk_size cfg);
    [discriminate|].
  intros Hc. injection Hc as Hc. subst c'. simpl.
  assert (Ht1 : exists y, (if max_chunk_size cfg <? length (ov ++ " "%char :: text cur)
                then firstn (max_chunk_size cfg) (ov ++ " "%char :: text cur)
                else ov ++ " "%char :: text cur) = ov ++ y).
  { destruct (max_chunk_size cfg <? _).
    - rewrite firstn_app, firstn_all2 by lia. eexists. reflexivity.
    - eexists. reflexivity. }
  destruct Ht1 as [y Hy]. rewrite Hy.
  unfold strip. rewrite lstrip_app.
  destruct (lstrip ov) as [|c l] eqn:El; [discriminate|].
  rewrite <- El. apply rstrip_app_solid. rewrite El. exact Hl.
Qed.

Lemma paragraph_loop_pre cfg doc fname ps pos :
  paragraph_loop (real_steps cfg) cfg doc fname ps pos
  = Ok (pre_overlap_loop cfg doc fname ps pos).
Proof.
  revert pos. induction ps as [|p ps IH]; intros pos; [reflexivity|].
  simpl. destruct (length (strip p) <? min_chunk_size cfg); [apply IH|].
  simpl. rewrite IH. reflexivity.
Qed.

Lemma chunk_text_stages cfg t doc fname :
  chunk_text cfg t doc fname
  = _validate_and_cleanup_chunks cfg (_apply_overlap cfg (pre_overlap_chunks cfg t doc fname)).
Proof.
  unfold chunk_text, chunk_text_with, chunk_text_body, pre_overlap_chunks. simpl.
  rewrite paragraph_loop_pre. reflexivity.
Qed.

Lemma overlap_rest_nth cfg p0 rest i prev cur :
  nth_error (p0 :: rest) i = Some prev -> nth_error rest i = Some cur ->
  nth_error (overlap_rest cfg p0 rest) i = Some (overlap_one cfg prev cur).
Proof.
  revert p0 i. induction rest as [|c r IH]; intros p0 i Hp Hc.
  - destruct i; discriminate.
  - destruct i as [|i]; simpl in *.
    + inversion Hp; inversion Hc; subst. reflexivity.
    + apply IH; assumption.
Qed.

Lemma apply_overlap_nth cfg chunks i prev cur :
  nth_error chunks i = Some prev -> nth_error chunks (S i) = Some cur ->
  nth_error (_apply_overlap cfg chunks) (S i) = Some (overlap_one cfg prev cur).
Proof.
  destruct chunks as [|c0 [|c1 r]]; intros Hp Hc.
  - destruct i; discriminate.
  - destruct i; discriminate.
  - exact (overlap_rest_nth cfg c0 (c1 :: r) i prev cur Hp Hc).
Qed.

(** ** C3 *)

(** Claim C3 (amended): for consecutive pre-overlap chunks [prev] and [cur]
    of [chunk_text] (positions [i] and [i+1]), with
    [0 < overlap_size <= max_chunk_size]: [chunk_text] validates the
    overlapped list, whose entry [i+1] is [cur] with the overlap text of
    [prev] prepended; that overlap text with its leading whitespace removed
    is a non-empty suffix of [prev]'s text of at most [overlap_size]
    characters, and the emitted chunk for entry [i+1], if validation keeps
    it, starts with it. *)
Theorem C3_overlap_prefix (cfg : Config) (t : pystr) (doc : Z) (fname : pystr)
    (i : nat) (prev cur : TextChunk)
    (Hsize : 0 < overlap_size cfg <= max_chunk_size cfg)
    (Hprev : nth_error (pre_overlap_chunks cfg t doc fname) i = Some prev)
    (Hcur : nth_error (pre_overlap_chunks cfg t doc fname) (S i) = Some cur) :
  chunk_text cfg t doc fname
    = _validate_and_cleanup_chunks cfg (_apply_overlap cfg (pre_overlap_chunks cfg t doc fname))
  /\ nth_error (_apply_overlap cfg (pre_overlap_chunks cfg t doc fname)) (S i)
     = Some (overlap_one cfg prev cur)
  /\ let ov := lstrip (_get_overlap_text (text prev) (overlap_size cfg)) in
     ov <> [] /\ (exists p, text prev = p ++ ov) /\ length ov <= overlap_size cfg
     /\ forall c', cleanup cfg (overlap_one cfg prev cur) = Some c' ->
                   exists r, text c' = ov ++ r.
Proof.
  assert (Hs : ends_solid (text prev) = true)
    by (apply (pre_overlap_chunks_solid cfg t doc fname); eapply nth_error_In; exact Hprev).
  split; [apply chunk_text_stages|].
  split; [apply apply_overlap_nth; assumption|].
  destruct (overlap_text_suffix (text prev) (overlap_size cfg) Hs ltac:(lia))
    as [Hov [[p Hp] Hlen]].
  set (o := _get_overlap_text (text prev) (overlap_size cfg)) in *.
  cbv zeta.
  destruct (lstrip_suffix o) as [q Hq].
  split; [apply ends_solid_nonnil, lstrip_solid; exact Hov|].
  split; [exists (p ++ q); rewrite <- app_assoc, <- Hq; exact Hp|].
  split.
  - rewrite Hq, length_app in Hlen. lia.
  - intros c'. apply cleanup_overlap_prefix; assumption.
Qed.

Lemma C3_witness :
  let P := pre_overlap_chunks default_config spaced_input 1%Z (str "doc.pdf") in
  let prev := nth 0 P dummy_chunk in
  let cur := nth 1 P dummy_chunk in
  (0 < overlap_size default_config <= max_chunk_size default_config
   /\ nth_error P 0 = Some prev /\ nth_error P 1 = Some cur)
  /\ (chunk_text default_config spaced_input 1%Z (str "doc.pdf")
        = _validate_and_cleanup_chunks default_config (_apply_overlap default_config P)
      /\ nth_error (_apply_overlap default_config P) 1 = Some (overlap_one default_config prev cur)
      /\ let ov := lstrip (_get_overlap_text (text prev) (overlap_size default_config)) in
         ov <> [] /\ (exists p, text prev = p ++ ov) /\ length ov <= overlap_size default_config
         /\ forall c', cleanup default_config (overlap_one default_config prev cur) = Some c' ->
                       exists r, text c' = ov ++ r).
Proof.
  intros P prev cur.
  assert (H1 : 0 < overlap_size default_config <= max_chunk_size default_config)
    by (simpl; lia).
  assert (H2 : nth_error P 0 = Some prev) by (vm_compute; reflexivity).
  assert (H3 : nth_error P 1 = Some cur) by (vm_compute; reflexivity).
  split; [split; [exact H1|split; assumption]|].
  exact (C3_overlap_prefix default_config spaced_input 1%Z (str "doc.pdf") 0 prev cur H1 H2 H3).
Defined.

(** Claim C3 (as stated, refuted): for three sentences of 800, 199 and 900
    letters the first chunk is 1000 characters long, its last 200 characters
    are a space and the 199 ['b']s, with no sentence boundary; the second
    chunk emitted starts with the ['b']s, not with that raw window. *)
Lemma C3_raw_window_not_prefix :
  let P := pre_overlap_chunks default_config spaced_input 1%Z (str "doc.pdf") in
  let C := chunk_text default_config spaced_input 1%Z (str "doc.pdf") in
  map text P = [repeat "a"%char 800 ++ " "%char :: repeat "b"%char 199; repeat "c"%char 900]
  /\ search_boundary (last_chars (nth 0 (map text P) []) 200) = None
  /\ map text C = [repeat "a"%char 800 ++ " "%char :: repeat "b"%char 199;
                   repeat "b"%char 199 ++ " "%char :: repeat "c"%char 900]
  /\ ~ (exists r, nth 1 (map text C) [] = last_chars (nth 0 (map text P) []) 200 ++ r).
Proof.
  intros P C. split; [vm_compute; reflexivity|].
  split; [vm_compute; reflexivity|].
  split; [vm_compute; reflexivity|].
  intros [r Hr]. vm_compute in Hr. discriminate Hr.
Qed.

End ChunkerFacts.

(** * Properties of retrieval *)
Module RetrievalFacts.
Import Retrieval RetrievalScenarios.

Lemma similarity_score_max (d : Q) : similarity_score d == Qmax 0 (1 - d).
Proof.
  unfold similarity_score. destruct (Qlt_le_dec d 1) as [Hd|Hd].
  - symmetry. apply Q.max_r. lra.
  - symmetry. apply Q.max_l. lra.
Qed.

Lemma to_context_chunks_sound (validate_int : MetaValue -> result Z) es cs c :
  to_context_chunks validate_int es = Ok cs -> In c cs ->
  exists t m d, In (Some t, Some m, d) es /\ t <> [] /\ m <> []
    /\ chunk_of_entry (Some t, Some m, d) c.
Proof.
  revert cs; induction es as [|[[ot om] d] es IH]; intros cs Hcs Hin.
  - simpl in Hcs. inversion Hcs; subst. destruct Hin.
  - simpl in Hcs. destruct ot as [t|], om as [m|];
      try (destruct (IH cs Hcs Hin) as (t' & m' & d' & ? & ?);
           exists t', m', d'; simpl in *; tauto).
    destruct (is_nil t || is_nil m) eqn:Hnil.
    + destruct (IH cs Hcs Hin) as (t' & m' & d' & ? & ?).
      exists t', m', d'. simpl in *. tauto.
    + destruct (context_document_id validate_int m) as [z|e] eqn:Hz;
        [|discriminate].
      simpl in Hcs. destruct (to_context_chunks validate_int es) as [more|e] eqn:Hm;
        [|discriminate].
      simpl in Hcs. inversion Hcs; subst cs. destruct Hin as [<-|Hin].
      * apply orb_false_iff in Hnil as [Ht Hm'].
        exists t, m, d. repeat split; simpl; auto.
        -- intros ->. discriminate.
        -- intros ->. discriminate.
        -- apply similarity_score_max.
      * destruct (IH more eq_refl Hin) as (t' & m' & d' & ? & ?).
        exists t', m', d'. simpl in *. tauto.
Qed.

Lemma to_context_chunks_complete (validate_int : MetaValue -> result Z) es :
  (forall t m d, In (Some t, Some m, d) es -> t <> [] -> m <> [] ->
     exists z, context_document_id validate_int m = Ok z) ->
  exists cs, to_context_chunks validate_int es = Ok cs
    /\ Forall2 chunk_of_entry (filter entry_kept es) cs.
Proof.
  induction es as [|[[ot om] d] es IH]; intros Hval.
  - exists []. split; [reflexivity|constructor].
  - assert (Hrest : forall t m d', In (Some t, Some m, d') es -> t <> [] -> m <> [] ->
              exists z, context_document_id validate_int m = Ok z)
      by (intros; eapply Hval; eauto; right; eauto).
    destruct (IH Hrest) as [cs [Hcs Hf]].
    destruct ot as [t|], om as [m|]; simpl;
      try (exists cs; split; assumption).
    destruct (is_nil t) eqn:Ht, (is_nil m) eqn:Hm; simpl;
      try (exists cs; split; assumption).
    destruct (Hval t m d (or_introl eq_refl)) as [z Hz].
    { intros ->. discriminate. }
    { intros ->. discriminate. }
    rewrite Hz. simpl. rewrite Hcs. simpl.
    eexists. split; [reflexivity|].
    constructor; [|exact Hf].
    simpl. repeat split; auto. apply similarity_score_max.
Qed.

Lemma retrieve_entries (validate_int : MetaValue -> result Z)
    (search : Z -> pystr -> nat -> SearchResults) p q n :
  retrieve_context_body validate_int search p q n = Ok []
  \/ retrieve_context_body validate_int search p q n
     = to_context_chunks validate_int (result_entries (search p q n))
  \/ (exists e, retrieve_context_body validate_int search p q n = Err e
        /\ result_entries (search p q n) = []).
Proof.
  unfold retrieve_context_body, result_entries.
  destruct (sr_documents (search p q n)) as [|d0 ds]; [left; reflexivity|].
  simpl. destruct (sr_metadatas (search p q n)) as [|m0 ms]; simpl.
  - right; right. eexists. split; reflexivity.
  - destruct (sr_distances (search p q n)) as [|s0 ss]; simpl.
    + right; right. eexists. split; reflexivity.
    + right; left. reflexivity.
Qed.

(** Claim C7: every context chunk [retrieve_context] returns comes from a
    query entry with non-empty text and non-empty metadata and carries the
    similarity score [max(0, 1 - distance)] of that entry; and when the
    [document_id] of every such entry passes validation, the returned chunks
    are exactly those entries, in order, each with that score: the entries
    with empty or missing text or metadata are dropped and raise nothing. *)
Theorem C7_similarity_and_drop (validate_int : MetaValue -> result Z)
    (search : Z -> pystr -> nat -> SearchResults) (p : Z) (q : pystr) (n : nat) :
  (forall c, In c (retrieve_context validate_int search p q n) ->
     exists t m d, In (Some t, Some m, d) (result_entries (search p q n))
       /\ t <> [] /\ m <> [] /\ chunk_of_entry (Some t, Some m, d) c)
  /\ ((forall t m d, In (Some t, Some m, d) (result_entries (search p q n)) ->
         t <> [] -> m <> [] -> exists z, context_document_id validate_int m = Ok z) ->
      Forall2 chunk_of_entry (filter entry_kept (result_entries (search p q n)))
        (retrieve_context validate_int search p q n)).
Proof.
  unfold retrieve_context.
  destruct (retrieve_entries validate_int search p q n) as [H|[H|[e [H He]]]].
  - rewrite H. split; [intros c []|].
    intros Hval. unfold retrieve_context_body in H.
    destruct (sr_documents (search p q n)) eqn:Hd.
    + unfold result_entries. rewrite Hd. constructor.
    + destruct (to_context_chunks_complete validate_int (result_entries (search p q n)) Hval)
        as [cs [Hcs Hf]].
      unfold result_entries in *. rewrite Hd in *. simpl in H.
      destruct (sr_metadatas (search p q n)); [discriminate|].
      destruct (sr_distances (search p q n)); [discriminate|].
      simpl in H. rewrite H in Hcs. inversion Hcs; subst. exact Hf.
  - rewrite H. split.
    + intros c Hin. destruct (to_context_chunks validate_int _) as [cs|] eqn:Hcs;
        [|destruct Hin].
      eapply to_context_chunks_sound; eauto.
    + intros Hval.
      destruct (to_context_chunks_complete validate_int _ Hval) as [cs [Hcs Hf]].
      rewrite Hcs. exact Hf.
  - rewrite H, He. split; [intros c []|intros _; constructor].
Qed.

Lemma C7_witness :
  Forall2 chunk_of_entry
    (filter entry_kept (result_entries (sample_search 1%Z [] 5)))
    (retrieve_context validate_int_ints sample_search 1%Z [] 5)
  /\ length (retrieve_context validate_int_ints sample_search 1%Z [] 5) = 2.
Proof.
  split; [|vm_compute; reflexivity].
  apply (proj2 (C7_similarity_and_drop validate_int_ints sample_search 1%Z [] 5)).
  intros t m d Hin _ _. simpl in Hin.
  destruct Hin as [H|[H|[H|[H|[]]]]]; inversion H; subst; eexists; reflexivity.
Defined.

End RetrievalFacts.

(** * Properties of the processing pipeline *)
Module PipelineFacts.
Import Chunker Pipeline Scenarios PipelineScenarios.

Lemma find_doc_id id ds d : find_doc id ds = Some d -> doc_id d = id.
Proof.
  induction ds as [|x ds IH]; simpl; [discriminate|].
  destruct (Z.eqb (doc_id x) id) eqn:E; [|exact IH].
  intros H. inversion H; subst. apply Z.eqb_eq. exact E.
Qed.

Lemma find_doc_replace id ds d :
  find_doc id ds <> None -> doc_id d = id -> find_doc id (map (replace_doc d) ds) = Some d.
Proof.
  intros Hne Hd. subst id. induction ds as [|x ds IH]; [simpl in Hne; congruence|].
  destruct (Z.eqb (doc_id x) (doc_id d)) eqn:E.
  - assert (R : replace_doc d x = d) by (unfold replace_doc; rewrite E; reflexivity).
    simpl. rewrite R, Z.eqb_refl. reflexivity.
  - assert (R : replace_doc d x = x) by (unfold replace_doc; rewrite E; reflexivity).
    simpl in Hne |- *. rewrite R, E. rewrite E in Hne. apply IH. exact Hne.
Qed.

Lemma find_doc_present id ds d :
  find_doc id ds <> None -> find_doc id (map (replace_doc d) ds) <> None.
Proof.
  induction ds as [|x ds IH]; [simpl; congruence|].
  intros Hne. simpl in *.
  destruct (Z.eqb (doc_id (replace_doc d x)) id) eqn:Ey; [discriminate|].
  destruct (Z.eqb (doc_id x) id) eqn:Ex; [|apply IH; exact Hne].
  exfalso. unfold replace_doc in Ey.
  destruct (Z.eqb (doc_id x) (doc_id d)) eqn:Exd.
  - apply Z.eqb_eq in Exd. rewrite <- Exd, Ex in Ey. discriminate.
  - rewrite Ex in Ey. discriminate.
Qed.

(** Extraction does not look at the status. *)
Lemma extract_outcome_status pdf docx d s :
  extract_outcome pdf docx (set_status d s) = extract_outcome pdf docx d.
Proof. reflexivity. Qed.

(** The document a run works on is still in the store after each commit. *)
Ltac found := repeat apply find_doc_present; congruence.

(** Runs the pipeline one stage further, reading the document back from the
    store where the [except] handler does. *)
Ltac step := cbn -[chunk_text find_doc replace_doc];
  repeat (rewrite find_doc_replace by (found || reflexivity);
          cbn -[chunk_text find_doc replace_doc]).

Ltac open_run Hfind :=
  unfold process_in_session, try_finally, try_except, process_try, bind, _get_document,
    analysis_step, _chunk_text, _store_embeddings, add_document_embeddings,
    get_or_create_collection, collection_add, commit, modify, lift, ret, throw,
    remove_current_task, process_except, _extract_text;
  rewrite Hfind; cbn -[chunk_text find_doc replace_doc extract_outcome];
  rewrite extract_outcome_status.

Ltac pick_history := rewrite <- ?app_assoc; first
  [ exists [PROCESSING; ERROR]; split; [simpl; tauto | reflexivity]
  | exists [PROCESSING; PROCESSED; ERROR]; split; [simpl; tauto | reflexivity]
  | exists [PROCESSING; PROCESSED; ANALYZED; ERROR]; split; [simpl; tauto | reflexivity]
  | exists [PROCESSING; PROCESSED; ANALYZED]; split; [simpl; tauto | reflexivity] ].

(** ** C6 *)

(** Claim C6 (as stated, refuted): in a run where the analysis succeeds and
    the embedding collaborator raises, the committed statuses are
    PROCESSING, PROCESSED, ANALYZED, ERROR and no vector is written: the
    status is ANALYZED before indexing, and ERROR follows ANALYZED. *)
Lemma C6_analyzed_before_indexing :
  let w' := snd (process_in_session (pdf_returning intro_input) docx_raising
                   analyze_ok embed_raising 5 7 uploaded_world) in
  history w' = [(7%Z, PROCESSING); (7%Z, PROCESSED); (7%Z, ANALYZED); (7%Z, ERROR)]
  /\ vectors w' = [].
Proof. split; vm_compute; reflexivity. Qed.

(** A run in which extraction and the analysis succeed commits PROCESSING,
    PROCESSED and ANALYZED, and then at most ERROR, whatever the chunker and
    the embedding collaborator do; the stored row keeps the analysis
    result. *)
Lemma analysis_commit_before_indexing pdf docx analyze embed now (id : Z) (w : World)
    (d : Document) (Hfind : find_doc id (docs w) = Some d) txt pages a :
  extract_outcome pdf docx d = Ok (txt, pages) ->
  analyze txt (original_filename d) = Ok a ->
  let w' := snd (process_in_session pdf docx analyze embed now id w) in
  exists e, (e = [] \/ e = [ERROR])
    /\ history w' = history w ++ map (fun s => (id, s)) ([PROCESSING; PROCESSED; ANALYZED] ++ e)
    /\ option_map (fun d' => (is_analyzed d', analysis_result d')) (find_doc id (docs w'))
       = Some (true, Some a).
Proof.
  intros Hext Han.
  pose proof (find_doc_id _ _ _ Hfind) as Hid. subst id.
  cbv zeta. open_run Hfind. rewrite Hext. step. rewrite Han. step.
  destruct (is_nil txt); step;
  [exists [ERROR]; split; [right; reflexivity|split; [rewrite <- ?app_assoc; reflexivity|reflexivity]]|].
  destruct (chunk_text default_config txt (doc_id d) (filename d)) as [|c cs]; step;
  [exists [ERROR]; split; [right; reflexivity|split; [rewrite <- ?app_assoc; reflexivity|reflexivity]]|].
  destruct (embed (text c :: map text cs)); step;
    destruct (existsb (Z.eqb (project_id d)) (collections w)); step;
    first [ exists []; split; [left; reflexivity|split; [rewrite <- ?app_assoc; reflexivity|reflexivity]]
          | exists [ERROR]; split; [right; reflexivity|split; [rewrite <- ?app_assoc; reflexivity|reflexivity]] ].
Qed.

(** Claim C6 (amended): in a run of the pipeline body on a stored document,
    the statuses committed for it are PROCESSING, ERROR or PROCESSING,
    PROCESSED, ERROR or PROCESSING, PROCESSED, ANALYZED, ERROR or
    PROCESSING, PROCESSED, ANALYZED.  When extraction and the analysis
    succeed, ANALYZED is committed with the analysis result before indexing:
    for every chunker outcome and every embedding collaborator (indexing
    succeeding, storing nothing or raising) the run commits PROCESSING,
    PROCESSED, ANALYZED and then nothing or ERROR, and the stored row is
    marked analyzed with that result. *)
Theorem C6_status_histories pdf docx analyze embed now (id : Z) (w : World) (d : Document)
    (Hfind : find_doc id (docs w) = Some d) :
  (exists h, In h [[PROCESSING; ERROR]; [PROCESSING; PROCESSED; ERROR];
                   [PROCESSING; PROCESSED; ANALYZED; ERROR];
                   [PROCESSING; PROCESSED; ANALYZED]]
    /\ history (snd (process_in_session pdf docx analyze embed now id w))
       = history w ++ map (fun s => (id, s)) h)
  /\ (forall txt pages a,
        extract_outcome pdf docx d = Ok (txt, pages) ->
        analyze txt (original_filename d) = Ok a ->
        let w' := snd (process_in_session pdf docx analyze embed now id w) in
        exists e, (e = [] \/ e = [ERROR])
          /\ history w' = history w ++ map (fun s => (id, s)) ([PROCESSING; PROCESSED; ANALYZED] ++ e)
          /\ option_map (fun d' => (is_analyzed d', analysis_result d')) (find_doc id (docs w'))
             = Some (true, Some a)).
Proof.
  split; [|intros txt pages a;
           exact (analysis_commit_before_indexing pdf docx analyze embed now id w d Hfind txt pages a)].
  pose proof (find_doc_id _ _ _ Hfind) as Hid. subst id.
  open_run Hfind.
  destruct (extract_outcome pdf docx d) as [[txt pages]|e]; step; [|pick_history].
  destruct (analyze txt (original_filename d)) as [a|e]; step;
  destruct (is_nil txt); step; try pick_history;
  destruct (chunk_text default_config txt (doc_id d) (filename d)) as [|c cs]; step;
    try pick_history.
  all: destruct (embed (text c :: map text cs)); step;
    destruct (existsb (Z.eqb (project_id d)) (collections w)); step; pick_history.
Qed.

Lemma C6_witness :
  (find_doc 7 (docs uploaded_world) = Some uploaded_doc
   /\ extract_outcome (pdf_returning intro_input) docx_raising uploaded_doc = Ok (intro_input, 1)
   /\ analyze_ok intro_input (original_filename uploaded_doc) = Ok sample_analysis)
  /\ (exists h, In h [[PROCESSING; ERROR]; [PROCESSING; PROCESSED; ERROR];
                     [PROCESSING; PROCESSED; ANALYZED; ERROR];
                     [PROCESSING; PROCESSED; ANALYZED]]
      /\ history (snd (process_in_session (pdf_returning intro_input) docx_raising
                         analyze_ok embed_raising 5 7 uploaded_world))
         = history uploaded_world ++ map (fun s => (7%Z, s)) h)
  /\ (let w' := snd (process_in_session (pdf_returning intro_input) docx_raising
                       analyze_ok embed_raising 5 7 uploaded_world) in
      exists e, (e = [] \/ e = [ERROR])
        /\ history w' = history uploaded_world
                        ++ map (fun s => (7%Z, s)) ([PROCESSING; PROCESSED; ANALYZED] ++ e)
        /\ option_map (fun d' => (is_analyzed d', analysis_result d')) (find_doc 7 (docs w'))
           = Some (true, Some sample_analysis)).
Proof.
  assert (H1 : find_doc 7 (docs uploaded_world) = Some uploaded_doc) by reflexivity.
  assert (H2 : extract_outcome (pdf_returning intro_input) docx_raising uploaded_doc
               = Ok (intro_input, 1)) by reflexivity.
  assert (H3 : analyze_ok intro_input (original_filename uploaded_doc) = Ok sample_analysis)
    by reflexivity.
  pose proof (C6_status_histories (pdf_returning intro_input) docx_raising analyze_ok
                embed_raising 5 7 uploaded_world uploaded_doc H1) as [Hh Ha].
  split; [split; [exact H1|split; [exact H2|exact H3]]|].
  split; [exact Hh|].
  exact (Ha intro_input 1 sample_analysis H2 H3).
Defined.

(** ** C4 *)

(** Claim C4 (as stated, refuted): a PDF whose text is ["abc"] segments into
    no chunk; the run ends in ERROR with the message
    ["Failed to store embeddings"], not ["no indexable content"]. *)
Lemma C4_message_counterexample :
  chunk_text default_config (str "abc") 7 (str "7_notes.pdf") = []
  /\ row 7 (snd (process_in_session (pdf_returning (str "abc")) docx_raising
                   analyze_ok embed_ok 5 7 uploaded_world))
     = Some (ERROR, Some (str "Failed to store embeddings"))
  /\ Some (str "Failed to store embeddings") <> Some (str "no indexable content").
Proof.
  split; [vm_compute; reflexivity|].
  split; [vm_compute; reflexivity|].
  intros H. vm_compute in H. discriminate H.
Qed.

(** Claim C4 (amended): in a run of the pipeline body where extraction
    returns a non-empty text that [chunk_text] turns into no chunk, the run
    returns normally, writes no vector and creates no collection, and leaves
    the document in ERROR with the message ["Failed to store embeddings"]. *)
Theorem C4_no_chunks_error pdf docx analyze embed now (id : Z) (w : World)
    (d : Document) (txt : pystr) (pages : nat)
    (Hfind : find_doc id (docs w) = Some d)
    (Hext : extract_outcome pdf docx d = Ok (txt, pages))
    (Htxt : txt <> [])
    (Hnone : chunk_text default_config txt id (filename d) = []) :
  let run := process_in_session pdf docx analyze embed now id w in
  fst run = Ok tt
  /\ vectors (snd run) = vectors w /\ collections (snd run) = collections w
  /\ row id (snd run) = Some (ERROR, Some (str "Failed to store embeddings")).
Proof.
  pose proof (find_doc_id _ _ _ Hfind) as Hid. subst id.
  cbv zeta. unfold row. open_run Hfind. rewrite Hext. step.
  destruct txt as [|ch txt]; [contradiction|].
  destruct (analyze (ch :: txt) (original_filename d)); step; rewrite Hnone; step;
    repeat split; reflexivity.
Qed.

Lemma C4_witness :
  (find_doc 7 (docs uploaded_world) = Some uploaded_doc
   /\ extract_outcome (pdf_returning (str "abc")) docx_raising uploaded_doc = Ok (str "abc", 1)
   /\ str "abc" <> []
   /\ chunk_text default_config (str "abc") 7 (filename uploaded_doc) = [])
  /\ (let run := process_in_session (pdf_returning (str "abc")) docx_raising analyze_ok
                   embed_ok 5 7 uploaded_world in
      fst run = Ok tt
      /\ vectors (snd run) = vectors uploaded_world
      /\ collections (snd run) = collections uploaded_world
      /\ row 7 (snd run) = Some (ERROR, Some (str "Failed to store embeddings"))).
Proof.
  assert (H1 : find_doc 7 (docs uploaded_world) = Some uploaded_doc) by reflexivity.
  assert (H2 : extract_outcome (pdf_returning (str "abc")) docx_raising uploaded_doc
               = Ok (str "abc", 1)) by reflexivity.
  assert (H3 : str "abc" <> []) by discriminate.
  assert (H4 : chunk_text default_config (str "abc") 7 (filename uploaded_doc) = [])
    by (vm_compute; reflexivity).
  split; [split; [exact H1|split; [exact H2|split; [exact H3|exact H4]]]|].
  exact (C4_no_chunks_error (pdf_returning (str "abc")) docx_raising analyze_ok embed_ok 5
           7 uploaded_world uploaded_doc (str "abc") 1 H1 H2 H3 H4).
Defined.

(** ** C5 *)

(** Claim C5 (the code at fault): [_process_document] enters
    [async with get_async_session()] before its [try], and that raises
    [TypeError]; with an analysis that raises and every other stage
    succeeding, the document stays UPLOADED, while the body of the
    [async with] would have reached ANALYZED with no analysis result. *)
Theorem C5_session_entry_raises :
  _process_document (pdf_returning intro_input) docx_raising analyze_raising embed_ok 5 7
    uploaded_world
  = (Err (Exn "TypeError"
       (str "'async_generator' object does not support the asynchronous context manager protocol")),
     uploaded_world)
  /\ row 7 uploaded_world = Some (UPLOADED, None)
  /\ (let w' := snd (process_in_session (pdf_returning intro_input) docx_raising
                       analyze_raising embed_ok 5 7 uploaded_world) in
      history w' = [(7%Z, PROCESSING); (7%Z, PROCESSED); (7%Z, ANALYZED)]
      /\ option_map (fun d => (status d, analysis_result d)) (find_doc 7 (docs w'))
         = Some (ANALYZED, None)).
Proof.
  split; [reflexivity|]. split; [reflexivity|].
  split; vm_compute; reflexivity.
Qed.

(** ** C8 *)

(** Claim C8 (the code at fault): [reprocess_document] enters
    [async with get_db()], and [get_db] is not defined in its module: every
    call raises [NameError] and changes nothing, so no vector is deleted, no
    field is reset and nothing is queued.  Its [try] body, were it reached,
    keeps the analysis result. *)
Theorem C8_reprocess_raises :
  (forall now id w, reprocess_document now id w
     = (Err (Exn "NameError" (str "name 'get_db' is not defined")), w))
  /\ (let w' := snd (reprocess_document_with 5 (ret tt) 7 analyzed_world) in
      vectors w' = [] /\ queue w' = [mkJob 7 1 5]
      /\ option_map (fun d => (status d, analysis_result d)) (find_doc 7 (docs w'))
         = Some (UPLOADED, Some sample_analysis)).
Proof.
  split; [reflexivity|]. vm_compute. repeat split; reflexivity.
Qed.

(** ** C9 *)

(** Claim C9 (the code at fault): the [finally] of the pipeline body removes
    the document from [current_tasks] on every path, but [_process_document]
    raises on entering [async with get_async_session()], before its [try].
    From a queue holding one job for document 7: the loop registers 7, the
    task raises and leaves 7 registered and the document UPLOADED, and every
    later job for 7 is dropped. *)
Theorem C9_task_never_released :
  (forall pdf docx analyze embed now id w,
     ~ In id (current_tasks (snd (process_in_session pdf docx analyze embed now id w))))
  /\ (let w1 := snd (processing_loop_step queued_world) in
      let w2 := snd (run_next_task (pdf_returning intro_input) docx_raising analyze_ok
                       embed_ok 5 w1) in
      let w3 := snd (queue_document_for_processing 5 7 1 w2) in
      let w4 := snd (processing_loop_step w3) in
      current_tasks w1 = [7%Z] /\ current_tasks w2 = [7%Z] /\ docs w2 = [uploaded_doc]
      /\ queue w3 = [mkJob 7 1 5]
      /\ w4 = mkWorld [uploaded_doc] [1%Z] [] [] [] [7%Z] []).
Proof.
  split.
  - intros pdf docx analyze embed now id w.
    unfold process_in_session, try_finally, remove_current_task, modify.
    destruct (try_except _ _ w) as [r w']. simpl.
    rewrite filter_In. intros [_ H]. rewrite Z.eqb_refl in H. discriminate.
  - vm_compute. repeat split; reflexivity.
Qed.

End PipelineFacts.

(** * Further properties of the chunker *)
Module ChunkerExtras.
Import Chunker Scenarios ChunkerFacts.

Lemma newline_space c : is_newline c = true -> is_space c = true.
Proof. unfold is_newline. intros H. apply Ascii.eqb_eq in H. subst c. reflexivity. Qed.

Lemma collapse_no_newline b s c : In c (collapse_spaces b s) -> is_newline c = false.
Proof.
  revert b; induction s as [|x s IH]; intros b; simpl; [tauto|].
  destruct (is_space x) eqn:Ex; [destruct b|].
  - apply IH.
  - intros [E|H]; [subst c; reflexivity|exact (IH true H)].
  - intros [E|H]; [subst x|exact (IH false H)].
    destruct (is_newline c) eqn:En; [|reflexivity].
    rewrite (newline_space _ En) in Ex. discriminate.
Qed.

Lemma re_sub_blank_id f s :
  (forall c, In c s -> is_newline c = false) ->
  re_sub_fuel blank_line_match newline2 f s = s.
Proof.
  revert s; induction f as [|f IH]; intros s Hs; [reflexivity|].
  destruct s as [|c r]; [reflexivity|]. simpl.
  rewrite (Hs c (or_introl eq_refl)).
  rewrite IH; [reflexivity|]. intros x Hx; apply Hs; right; exact Hx.
Qed.

Lemma re_split_blank_single f s :
  (forall c, In c s -> is_newline c = false) ->
  re_split_fuel blank_line_match f s = [s].
Proof.
  revert s; induction f as [|f IH]; intros s Hs; [reflexivity|].
  destruct s as [|c r]; [reflexivity|]. simpl.
  rewrite (Hs c (or_introl eq_refl)).
  rewrite IH; [reflexivity|]. intros x Hx; apply Hs; right; exact Hx.
Qed.

Lemma span_app p s a b : span p s = (a, b) -> s = a ++ b.
Proof.
  revert a b; induction s as [|c s IH]; intros a b; simpl.
  - intros H; inversion H; reflexivity.
  - destruct (p c); [|intros H; inversion H; reflexivity].
    destruct (span p s) as [x y] eqn:E. intros H; injection H as <- <-.
    rewrite (IH x y eq_refl). reflexivity.
Qed.

Lemma from_last_newline_suffix s t : from_last_newline s = Some t -> exists p, s = p ++ t.
Proof.
  revert t; induction s as [|c s IH]; intros t; simpl; [discriminate|].
  destruct (from_last_newline s) as [u|] eqn:E.
  - intros H; injection H as <-. destruct (IH u eq_refl) as [p Hp].
    exists (c :: p). rewrite Hp. reflexivity.
  - destruct (is_newline c); [|discriminate]. intros H; inversion H. exists []. reflexivity.
Qed.

Lemma page_number_match_suffix s r : page_number_match s = Some r -> exists p, s = p ++ r.
Proof.
  unfold page_number_match.
  destruct (span is_digit s) as [ds r1] eqn:E1.
  destruct (is_nil ds); [discriminate|].
  destruct (span is_space r1) as [run rest] eqn:E2.
  rewrite (span_app _ _ _ _ E1), (span_app _ _ _ _ E2).
  destruct rest as [|x rest].
  - intros H; inversion H; subst. exists (ds ++ run). rewrite <- app_assoc. reflexivity.
  - destruct (from_last_newline run) as [t|] eqn:E3; [|discriminate].
    intros H; inversion H; subst.
    destruct (from_last_newline_suffix _ _ E3) as [p Hp]. rewrite Hp.
    exists (ds ++ p). rewrite !app_assoc. reflexivity.
Qed.

Lemma sub_page_numbers_in b f s c : In c (sub_page_numbers_fuel b f s) -> In c s.
Proof.
  revert b s; induction f as [|f IH]; intros b s; [tauto|].
  destruct s as [|x r]; [tauto|]. cbn [sub_page_numbers_fuel].
  destruct (if b then page_number_match (x :: r) else None) as [rest|] eqn:E.
  - intros H. apply IH in H.
    assert (Hs : exists p, x :: r = p ++ rest).
    { destruct b; [|discriminate]. eapply page_number_match_suffix; exact E. }
    destruct Hs as [p Hp]. rewrite Hp. apply in_or_app. right. exact H.
  - intros [H|H]; [left; exact H|right; eapply IH; exact H].
Qed.

Lemma sub_dots_in f s c : In c (sub_dots_fuel f s) -> In c s \/ c = "."%char.
Proof.
  revert s; induction f as [|f IH]; intros s; [tauto|].
  destruct s as [|x r]; [tauto|]. simpl.
  destruct (is_dot x) eqn:Ex.
  - destruct (span is_dot r) as [a b] eqn:E. simpl.
    assert (Hr : r = a ++ b) by exact (span_app _ _ _ _ E).
    destruct (match length a with S (S _) => true | _ => false end).
    + intros [H|[H|[H|H]]]; try (right; congruence).
      destruct (IH b H) as [H'|H']; [left; right; rewrite Hr; apply in_or_app; right; exact H'|right; exact H'].
    + intros [H|H]; [left; left; exact H|].
      apply in_app_or in H as [H|H].
      * left; right; rewrite Hr; apply in_or_app; left; exact H.
      * destruct (IH b H) as [H'|H']; [left; right; rewrite Hr; apply in_or_app; right; exact H'|right; exact H'].
  - intros [H|H]; [left; left; exact H|].
    destruct (IH r H) as [H'|H']; [left; right; exact H'|right; exact H'].
Qed.

Lemma strip_in s c : In c (strip s) -> In c s.
Proof.
  unfold strip, rstrip. intros H. apply in_rev in H.
  destruct (lstrip_suffix (rev (lstrip s))) as [p Hp].
  assert (H1 : In c (rev (lstrip s))) by (rewrite Hp; apply in_or_app; right; exact H).
  apply in_rev in H1.
  destruct (lstrip_suffix s) as [q Hq]. rewrite Hq. apply in_or_app. right. exact H1.
Qed.

Lemma preprocess_no_newline t c : In c (_preprocess_text t) -> is_newline c = false.
Proof.
  unfold _preprocess_text, re_sub, sub_dots, sub_page_numbers.
  rewrite re_sub_blank_id by (apply collapse_no_newline).
  intros H. apply strip_in, sub_dots_in in H as [H|H]; [|subst c; reflexivity].
  apply sub_page_numbers_in in H. exact (collapse_no_newline _ _ _ H).
Qed.

Lemma lstrip_idem s : lstrip (lstrip s) = lstrip s.
Proof.
  induction s as [|c s IH]; [reflexivity|]. simpl.
  destruct (is_space c) eqn:E; [exact IH|simpl; rewrite E; reflexivity].
Qed.

Lemma rstrip_idem s : rstrip (rstrip s) = rstrip s.
Proof. unfold rstrip. rewrite rev_involutive, lstrip_idem. reflexivity. Qed.

Lemma rstrip_cons_solid c r : is_space c = false -> exists y, rstrip (c :: r) = c :: y.
Proof.
  intros Hc. unfold rstrip. simpl. rewrite lstrip_app.
  destruct (lstrip (rev r)) as [|x l].
  - simpl. rewrite Hc. exists []. reflexivity.
  - exists (rev (x :: l)). rewrite rev_app_distr. reflexivity.
Qed.

Lemma lstrip_rstrip_lstrip s : lstrip (rstrip (lstrip s)) = rstrip (lstrip s).
Proof.
  destruct (lstrip s) as [|c r] eqn:E; [reflexivity|].
  destruct (rstrip_cons_solid c r (lstrip_head _ _ _ E)) as [y Hy]. rewrite Hy.
  simpl. rewrite (lstrip_head _ _ _ E). reflexivity.
Qed.

Lemma strip_idem s : strip (strip s) = strip s.
Proof.
  unfold strip at 1 2. rewrite lstrip_rstrip_lstrip. unfold strip. apply rstrip_idem.
Qed.

(** After [_preprocess_text], whose [\s+] substitution turns every newline
    into a space, [_split_into_paragraphs] finds no blank-line separator: it
    returns the whole preprocessed text as its only paragraph when that text
    is longer than 20 characters, and nothing otherwise. *)
Theorem preprocess_single_paragraph t :
  _split_into_paragraphs (_preprocess_text t)
  = if 20 <? length (_preprocess_text t) then [_preprocess_text t] else [].
Proof.
  unfold _split_into_paragraphs, re_split.
  rewrite re_split_blank_single by (apply preprocess_no_newline).
  assert (Hs : strip (_preprocess_text t) = _preprocess_text t)
    by (unfold _preprocess_text; apply strip_idem).
  simpl. rewrite Hs.
  destruct (_preprocess_text t) as [|c r]; reflexivity.
Qed.

Lemma lstrip_length s : length (lstrip s) <= length s.
Proof. induction s as [|c s IH]; simpl; [lia|destruct (is_space c); simpl; lia]. Qed.

Lemma strip_length s : length (strip s) <= length s.
Proof.
  unfold strip, rstrip. rewrite length_rev.
  pose proof (lstrip_length (rev (lstrip s))). pose proof (lstrip_length s).
  rewrite length_rev in H. lia.
Qed.

Lemma cleanup_spec cfg c c' :
  cleanup cfg c = Some c' ->
  min_chunk_size cfg <= length (strip (text c))
  /\ text c' = strip (firstn (max_chunk_size cfg) (text c))
  /\ strip (text c') = text c'
  /\ length (text c') <= max_chunk_size cfg
  /\ md_final_counts (metadata c') = Some (count_words (text c'), length (text c'))
  /\ chunk_type c' = chunk_type c /\ start_pos c' = start_pos c /\ end_pos c' = end_pos c
  /\ md_document_id (metadata c') = md_document_id (metadata c)
  /\ md_filename (metadata c') = md_filename (metadata c)
  /\ md_paragraph_index (metadata c') = md_paragraph_index (metadata c).
Proof.
  unfold cleanup.
  destruct (length (strip (text c)) <? min_chunk_size cfg) eqn:Hmin; [discriminate|].
  apply Nat.ltb_ge in Hmin. intros H. injection H as <-. simpl.
  assert (Ht : (if max_chunk_size cfg <? length (text c)
                then firstn (max_chunk_size cfg) (text c) else text c)
               = firstn (max_chunk_size cfg) (text c)).
  { destruct (max_chunk_size cfg <? length (text c)) eqn:E; [reflexivity|].
    apply Nat.ltb_ge in E. symmetry. apply firstn_all2. exact E. }
  rewrite Ht. repeat split; auto.
  - apply strip_idem.
  - pose proof (strip_length (firstn (max_chunk_size cfg) (text c))).
    rewrite length_firstn in H. lia.
Qed.

(** Every chunk [_validate_and_cleanup_chunks] keeps is stripped, at most
    [max_chunk_size] long and carries its final word and character counts;
    it comes from an input chunk whose stripped text is at least
    [min_chunk_size] long, its text is that chunk's text cut to
    [max_chunk_size] and stripped, and its type, positions, document id,
    filename and paragraph index are that chunk's. *)
Theorem validate_chunks_clean cfg cs :
  Forall (fun c =>
      strip (text c) = text c
      /\ length (text c) <= max_chunk_size cfg
      /\ md_final_counts (metadata c) = Some (count_words (text c), length (text c))
      /\ exists c0, In c0 cs
         /\ min_chunk_size cfg <= length (strip (text c0))
         /\ text c = strip (firstn (max_chunk_size cfg) (text c0))
         /\ chunk_type c = chunk_type c0 /\ start_pos c = start_pos c0
         /\ end_pos c = end_pos c0
         /\ md_document_id (metadata c) = md_document_id (metadata c0)
         /\ md_filename (metadata c) = md_filename (metadata c0)
         /\ md_paragraph_index (metadata c) = md_paragraph_index (metadata c0))
    (_validate_and_cleanup_chunks cfg cs).
Proof.
  induction cs as [|c cs IH]; simpl; [constructor|].
  destruct (cleanup cfg c) as [c'|] eqn:E.
  - constructor.
    + destruct (cleanup_spec _ _ _ E) as (H1 & H2 & H3 & H4 & H5 & H6 & H7 & H8 & H9 & H10 & H11).
      split; [exact H3|split; [exact H4|split; [exact H5|]]].
      exists c. split; [left; reflexivity|]. repeat split; assumption.
    + eapply Forall_impl; [|exact IH]. simpl.
      intros x (H1 & H2 & H3 & c0 & Hin & H).
      split; [exact H1|split; [exact H2|split; [exact H3|]]].
      exists c0. split; [right; exact Hin|exact H].
  - eapply Forall_impl; [|exact IH]. simpl.
    intros x (H1 & H2 & H3 & c0 & Hin & H).
    split; [exact H1|split; [exact H2|split; [exact H3|]]].
    exists c0. split; [right; exact Hin|exact H].
Qed.

Lemma overlap_one_shape cfg prev c : chunk_shape (overlap_one cfg prev c) = chunk_shape c.
Proof. unfold overlap_one. destruct (is_nil _); reflexivity. Qed.

Lemma overlap_rest_shape cfg prev cs :
  map chunk_shape (overlap_rest cfg prev cs) = map chunk_shape cs.
Proof.
  revert prev; induction cs as [|c cs IH]; intros prev; [reflexivity|].
  simpl. rewrite overlap_one_shape, IH. reflexivity.
Qed.

(** [_apply_overlap] keeps the number and order of the chunks and changes
    only their texts: types, positions, document ids, filenames and
    paragraph indices are those of the input. *)
Theorem apply_overlap_shape cfg cs :
  map chunk_shape (_apply_overlap cfg cs) = map chunk_shape cs.
Proof.
  unfold _apply_overlap. destruct (length cs <=? 1); [reflexivity|].
  destruct cs as [|c cs]; [reflexivity|]. simpl. rewrite overlap_rest_shape. reflexivity.
Qed.

Lemma search_boundary_suffix_gen w r : search_boundary w = Some r -> exists p, w = p ++ r.
Proof.
  revert r; induction w as [|c w IH]; intros r; simpl; [discriminate|].
  assert (Hrec : search_boundary w = Some r -> exists p, c :: w = p ++ r)
    by (intros H; destruct (IH r H) as [p Hp]; exists (c :: p); rewrite Hp; reflexivity).
  destruct (is_punct c); [|exact Hrec].
  destruct w as [|d w']; [discriminate|].
  destruct (is_space d); [|exact Hrec].
  intros H; injection H as <-. destruct (lstrip_suffix w') as [p Hp].
  exists (c :: d :: p). simpl. rewrite <- Hp. reflexivity.
Qed.

(** [_get_overlap_text text n] is a suffix of [text], at most [n] characters
    long when [n] is positive; with [n = 0] the slice [text[-0:]] is the
    whole text. *)
Theorem overlap_text_suffix_bound t n :
  (exists p, t = p ++ _get_overlap_text t n)
  /\ length (_get_overlap_text t n) <= (if n =? 0 then length t else n).
Proof.
  unfold _get_overlap_text.
  destruct (length t <=? n) eqn:Hle.
  - apply Nat.leb_le in Hle. split; [exists []; reflexivity|].
    destruct (n =? 0); lia.
  - apply Nat.leb_gt in Hle.
    assert (Hw : (exists p, t = p ++ last_chars t n)
                 /\ length (last_chars t n) <= (if n =? 0 then length t else n)).
    { unfold last_chars. destruct (n =? 0).
      - split; [exists []; reflexivity|lia].
      - split; [exists (firstn (length t - n) t); symmetry; apply firstn_skipn|].
        rewrite length_skipn. lia. }
    destruct Hw as [[p Hp] Hl].
    destruct (search_boundary (last_chars t n)) as [r|] eqn:Es.
    + destruct (search_boundary_suffix_gen _ _ Es) as [q Hq].
      split.
      * exists (p ++ q). rewrite <- app_assoc, <- Hq. exact Hp.
      * rewrite Hq, length_app in Hl. lia.
    + split; [exists p; exact Hp|exact Hl].
Qed.

Lemma accumulate_numbered cfg ty doc fname ss chunks cur st :
  map (fun c => md_paragraph_index (metadata c)) chunks = seq 0 (length chunks) ->
  Forall (fun c => chunk_type c = ty /\ md_document_id (metadata c) = doc
                   /\ md_filename (metadata c) = fname) chunks ->
  let '(cs, _, _) := accumulate cfg ty doc fname ss chunks cur st in
  map (fun c => md_paragraph_index (metadata c)) cs = seq 0 (length cs)
  /\ Forall (fun c => chunk_type c = ty /\ md_document_id (metadata c) = doc
                      /\ md_filename (metadata c) = fname) cs.
Proof.
  revert chunks cur st.
  induction ss as [|s ss IH]; intros chunks cur st Hn Ht; [simpl; auto|].
  simpl. destruct (_ && _).
  - apply IH.
    + rewrite map_app, Hn, length_app. simpl. rewrite Nat.add_1_r, seq_S. reflexivity.
    + apply Forall_app. split; [exact Ht|]. repeat constructor.
  - apply IH; assumption.
Qed.

Lemma create_chunks_tags cfg ty doc fname p pos :
  let cs := _create_chunks_from_paragraph cfg ty doc fname p pos in
  map (fun c => md_paragraph_index (metadata c)) cs = seq 0 (length cs)
  /\ Forall (fun c => chunk_type c = ty /\ md_document_id (metadata c) = doc
                      /\ md_filename (metadata c) = fname) cs.
Proof.
  unfold _create_chunks_from_paragraph.
  destruct (length p <=? chunk_size cfg); [split; [reflexivity|repeat constructor]|].
  pose proof (accumulate_numbered cfg ty doc fname (_split_into_sentences p) [] [] pos
                eq_refl (Forall_nil _)) as H.
  destruct (accumulate cfg ty doc fname (_split_into_sentences p) [] [] pos)
    as [[cs cur] st].
  destruct H as [Hn Ht].
  destruct (_ && _); [|split; assumption].
  split.
  - rewrite map_app, Hn, length_app. simpl. rewrite Nat.add_1_r, seq_S. reflexivity.
  - apply Forall_app. split; [exact Ht|]. repeat constructor.
Qed.

(** The chunks [_create_chunks_from_paragraph] builds from one paragraph carry
    the paragraph indices 0, 1, 2, ... in order, and all carry the given
    chunk type, document id and filename. *)
Theorem create_chunks_numbered cfg ty doc fname p pos :
  let cs := _create_chunks_from_paragraph cfg ty doc fname p pos in
  map (fun c => md_paragraph_index (metadata c)) cs = seq 0 (length cs)
  /\ Forall (fun c => chunk_type c = ty /\ md_document_id (metadata c) = doc
                      /\ md_filename (metadata c) = fname) cs.
Proof. exact (create_chunks_tags cfg ty doc fname p pos). Qed.


(** Sentences are stripped and non-empty. *)
Lemma split_sentences_tidy t s :
  In s (_split_into_sentences t) -> s <> [] /\ lstrip s = s /\ ends_solid s = true.
Proof.
  intros Hin. pose proof (split_sentences_solid _ _ Hin) as Hs.
  split; [exact (ends_solid_nonnil _ Hs)|split; [|exact Hs]].
  unfold _split_into_sentences in Hin. rewrite filter_In, in_map_iff in Hin.
  destruct Hin as [[q [Hq _]] _]. subst s. unfold strip. apply lstrip_rstrip_lstrip.
Qed.

Lemma tidy_strip s : lstrip s = s -> ends_solid s = true -> strip s = s.
Proof. intros H1 H2. unfold strip. rewrite H1. apply rstrip_solid. exact H2. Qed.

Lemma join_cons2 (a b : pystr) (r : list pystr) : join_space (a :: b :: r) = a ++ " "%char :: join_space (b :: r).
Proof. reflexivity. Qed.

Lemma join_snoc (l : list pystr) (x : pystr) :
  join_space (l ++ [x]) = match l with [] => x | _ => join_space l ++ " "%char :: x end.
Proof.
  induction l as [|a l IH]; [reflexivity|].
  destruct l as [|b l]; [reflexivity|].
  cbn -[join_space] in IH |- *. rewrite !join_cons2, IH.
  rewrite <- app_assoc. reflexivity.
Qed.

Lemma join_extend_last (l : list pystr) (a b : pystr) :
  join_space (l ++ [a ++ " "%char :: b]) = join_space (l ++ [a]) ++ " "%char :: b.
Proof.
  rewrite !join_snoc. destruct l; [reflexivity|]. rewrite <- app_assoc. reflexivity.
Qed.

Lemma join_snoc_nonnil (l : list pystr) (x : pystr) : x <> [] -> join_space (l ++ [x]) <> [].
Proof.
  intros Hx. rewrite join_snoc. destruct l; [exact Hx|].
  intros E. apply (f_equal (@length ascii)) in E. rewrite length_app in E. simpl in E. lia.
Qed.

Lemma accumulate_join cfg ty doc fname (ss : list pystr) (chunks : list TextChunk)
    (cur : pystr) (st : nat) (done : list pystr) :
  Forall (fun s => s <> [] /\ lstrip s = s /\ ends_solid s = true) ss ->
  (cur = [] /\ chunks = [] /\ done = [])
  \/ (cur <> [] /\ lstrip cur = cur /\ ends_solid cur = true
      /\ join_space (map text chunks ++ [cur]) = join_space done) ->
  let '(cs, cur', _) := accumulate cfg ty doc fname ss chunks cur st in
  (cur' = [] /\ cs = [] /\ done ++ ss = [])
  \/ (cur' <> [] /\ lstrip cur' = cur' /\ ends_solid cur' = true
      /\ join_space (map text cs ++ [cur']) = join_space (done ++ ss)).
Proof.
  revert chunks cur st done.
  induction ss as [|s ss IH]; intros chunks cur st done Hss Hinv.
  - simpl. rewrite app_nil_r. exact Hinv.
  - inversion Hss as [|? ? [Hs0 [Hs1 Hs2]] Hss']; subst.
    replace (done ++ s :: ss) with ((done ++ [s]) ++ ss) by (rewrite <- app_assoc; reflexivity).
    simpl. destruct ((chunk_size cfg <? length cur + length s) && negb (is_nil cur)) eqn:Eb.
    + apply IH; [exact Hss'|right].
      destruct Hinv as [[-> _]|[Hc0 [Hc1 [Hc2 Hj]]]]; [rewrite andb_false_r in Eb; discriminate|].
      split; [exact Hs0|split; [exact Hs1|split; [exact Hs2|]]].
      rewrite map_app. simpl. rewrite (tidy_strip _ Hc1 Hc2).
      pose proof (join_snoc_nonnil (map text chunks) cur Hc0) as Hnn. rewrite Hj in Hnn.
      assert (Hne : map text chunks ++ [cur] <> []) by (destruct (map text chunks); discriminate).
      rewrite (join_snoc (map text chunks ++ [cur])).
      destruct (map text chunks ++ [cur]) as [|y ys] eqn:E; [contradiction|].
      rewrite Hj, join_snoc.
      destruct done as [|d ds]; [contradiction|reflexivity].
    + apply IH; [exact Hss'|].
      destruct Hinv as [[-> [-> ->]]|[Hc0 [Hc1 [Hc2 Hj]]]].
      * right. simpl. split; [exact Hs0|split; [exact Hs1|split; [exact Hs2|reflexivity]]].
      * right. destruct cur as [|c0 cr]; [contradiction|]. simpl is_nil. cbv iota.
        split; [intros E; apply (f_equal (@length ascii)) in E; simpl in E; discriminate|].
        split.
        -- rewrite lstrip_app, Hc1. reflexivity.
        -- split.
           ++ replace ((c0 :: cr) ++ " "%char :: s) with (((c0 :: cr) ++ [" "%char]) ++ s)
                by (rewrite <- app_assoc; reflexivity).
              apply ends_solid_app. exact Hs2.
           ++ rewrite join_extend_last, Hj, join_snoc.
              destruct done as [|d ds]; [|reflexivity].
              exfalso. apply (join_snoc_nonnil (map text chunks) (c0 :: cr) Hc0). exact Hj.
Qed.

(** For a paragraph longer than [chunk_size]: either it has no sentence and
    no chunk is made, or the sentences joined with single spaces are the
    chunk texts followed by a non-empty last piece joined with single
    spaces, and that last piece is kept as a final chunk exactly when it is
    at least [min_chunk_size] long. *)
Theorem long_paragraph_chunks_join cfg ty doc fname p pos :
  chunk_size cfg < length p ->
  let ss := _split_into_sentences p in
  let cs := _create_chunks_from_paragraph cfg ty doc fname p pos in
  (ss = [] /\ cs = [])
  \/ exists pre last, last <> []
       /\ join_space (pre ++ [last]) = join_space ss
       /\ map text cs = if min_chunk_size cfg <=? length last then pre ++ [last] else pre.
Proof.
  intros Hlong ss cs. unfold cs, _create_chunks_from_paragraph.
  replace (length p <=? chunk_size cfg) with false by (symmetry; apply Nat.leb_gt; exact Hlong).
  pose proof (accumulate_join cfg ty doc fname ss [] [] pos []) as H.
  fold ss.
  destruct (accumulate cfg ty doc fname ss [] [] pos) as [[chunks cur] st].
  destruct H as [[H1 [H2 H3]]|[H1 [H2 [H3 H4]]]].
  - apply Forall_forall. intros s Hs. apply (split_sentences_tidy p s Hs).
  - left. auto.
  - left. subst. simpl. split; [exact H3|reflexivity].
  - right. exists (map text chunks), cur.
    split; [exact H1|split; [exact H4|]].
    rewrite (tidy_strip _ H2 H3).
    destruct cur as [|c r]; [contradiction|]. simpl.
    destruct (min_chunk_size cfg <=? S (length r)); [|reflexivity].
    rewrite map_app. reflexivity.
Qed.

Lemma accumulate_length cfg ty doc fname (all ss : list pystr) (chunks : list TextChunk)
    (cur : pystr) (st : nat) :
  Forall (fun s => In s all /\ lstrip s = s /\ ends_solid s = true) ss ->
  Forall (fun c => length (text c) <= chunk_size cfg + 1 \/ In (text c) all) chunks ->
  cur = [] \/ (lstrip cur = cur /\ ends_solid cur = true
               /\ (length cur <= chunk_size cfg + 1 \/ In cur all)) ->
  let '(cs, cur', _) := accumulate cfg ty doc fname ss chunks cur st in
  Forall (fun c => length (text c) <= chunk_size cfg + 1 \/ In (text c) all) cs
  /\ (cur' = [] \/ (lstrip cur' = cur' /\ ends_solid cur' = true
                    /\ (length cur' <= chunk_size cfg + 1 \/ In cur' all))).
Proof.
  revert chunks cur st.
  induction ss as [|s ss IH]; intros chunks cur st Hss Hcs Hcur; [simpl; auto|].
  inversion Hss as [|? ? [Hs0 [Hs1 Hs2]] Hss']; subst. simpl.
  destruct ((chunk_size cfg <? length cur + length s) && negb (is_nil cur)) eqn:Eb.
  - apply IH; [exact Hss'| |right; auto].
    apply Forall_app. split; [exact Hcs|]. constructor; [|constructor].
    destruct Hcur as [->|[Hc1 [Hc2 Hc3]]]; [rewrite andb_false_r in Eb; discriminate|].
    simpl. rewrite (tidy_strip _ Hc1 Hc2). exact Hc3.
  - apply IH; [exact Hss'|exact Hcs|right].
    destruct Hcur as [->|[Hc1 [Hc2 Hc3]]]; [simpl; auto|].
    destruct cur as [|c0 cr]; [simpl; auto|].
    simpl in Eb. simpl is_nil. cbv iota.
    split; [rewrite lstrip_app, Hc1; reflexivity|split].
    + replace ((c0 :: cr) ++ " "%char :: s) with (((c0 :: cr) ++ [" "%char]) ++ s)
        by (rewrite <- app_assoc; reflexivity).
      apply ends_solid_app. exact Hs2.
    + left. rewrite andb_true_r in Eb. apply Nat.ltb_ge in Eb.
      rewrite length_app. simpl in Eb |- *. lia.
Qed.

(** A chunk of [_create_chunks_from_paragraph] is at most [chunk_size + 1]
    characters long unless its text is a single sentence of the paragraph;
    the bound is reached: with [chunk_size = 22], two 11-letter sentences
    give one chunk of 23 characters. *)
Theorem create_chunk_length :
  (forall cfg ty doc fname p pos,
     Forall (fun c => length (text c) <= chunk_size cfg + 1
                      \/ In (text c) (_split_into_sentences p))
       (_create_chunks_from_paragraph cfg ty doc fname p pos))
  /\ map (fun c => length (text c))
       (_create_chunks_from_paragraph (mkConfig 22 0 0 2000) PARAGRAPH 1 []
          (repeat "a"%char 11 ++ str ". " ++ repeat "b"%char 11) 0) = [23].
Proof.
  split; [|vm_compute; reflexivity].
  intros cfg ty doc fname p pos. unfold _create_chunks_from_paragraph.
  destruct (length p <=? chunk_size cfg) eqn:E.
  - apply Nat.leb_le in E. repeat constructor. simpl. lia.
  - pose proof (accumulate_length cfg ty doc fname (_split_into_sentences p)
                  (_split_into_sentences p) [] [] pos) as H.
    destruct (accumulate cfg ty doc fname (_split_into_sentences p) [] [] pos)
      as [[cs cur] st].
    destruct H as [Hcs Hcur].
    + apply Forall_forall. intros s Hs. destruct (split_sentences_tidy p s Hs) as [_ Ht].
      split; [exact Hs|exact Ht].
    + constructor.
    + left; reflexivity.
    + destruct (_ && _) eqn:Eb; [|exact Hcs].
      apply Forall_app. split; [exact Hcs|]. constructor; [|constructor].
      destruct Hcur as [->|[Hc1 [Hc2 Hc3]]]; [discriminate|].
      simpl. rewrite (tidy_strip _ Hc1 Hc2). exact Hc3.
Qed.

Lemma long_paragraph_chunks_join_witness :
  chunk_size Scenarios.intro_config < length spaced_input
  /\ let ss := _split_into_sentences spaced_input in
     let cs := _create_chunks_from_paragraph intro_config PARAGRAPH 1 (str "doc.pdf")
                 spaced_input 0 in
     (ss = [] /\ cs = [])
     \/ exists pre last, last <> []
          /\ join_space (pre ++ [last]) = join_space ss
          /\ map text cs = if min_chunk_size intro_config <=? length last
                           then pre ++ [last] else pre.
Proof.
  assert (H : chunk_size intro_config < length spaced_input)
    by (apply Nat.ltb_lt; vm_compute; reflexivity).
  split; [exact H|].
  exact (long_paragraph_chunks_join intro_config PARAGRAPH 1 (str "doc.pdf") spaced_input 0 H).
Defined.

Lemma count_type_get k k' m :
  assoc_get k' (count_type k m)
  = if String.eqb k' k then Some (match assoc_get k m with Some n => S n | None => 1 end)
    else assoc_get k' m.
Proof.
  induction m as [|[k0 n] m IH]; simpl.
  - destruct (String.eqb k' k); reflexivity.
  - destruct (String.eqb_spec k0 k) as [->|Hne].
    + simpl. rewrite String.eqb_refl. destruct (String.eqb k' k); reflexivity.
    + simpl. rewrite IH. rewrite (proj2 (String.eqb_neq k k0)) by congruence.
      destruct (String.eqb k' k0) eqn:E1; destruct (String.eqb k' k) eqn:E2; try reflexivity.
      apply String.eqb_eq in E1, E2. congruence.
Qed.

Lemma count_type_sum k m : list_sum (map snd (count_type k m)) = S (list_sum (map snd m)).
Proof.
  induction m as [|[k0 n] m IH]; [reflexivity|]. simpl.
  destruct (String.eqb k0 k); simpl; [reflexivity|]. rewrite IH. lia.
Qed.

Lemma count_type_keys k m x : In x (map fst (count_type k m)) -> x = k \/ In x (map fst m).
Proof.
  induction m as [|[k0 n] m IH]; simpl.
  - intros [H|[]]. left; symmetry; exact H.
  - destruct (String.eqb k0 k); simpl; [tauto|].
    intros [H|H]; [right; left; exact H|]. destruct (IH H); tauto.
Qed.

Lemma count_type_nodup k m : NoDup (map fst m) -> NoDup (map fst (count_type k m)).
Proof.
  induction m as [|[k0 n] m IH]; simpl; intros Hm.
  - repeat constructor. intros [].
  - inversion Hm as [|? ? Hk0 Hm']; subst.
    destruct (String.eqb_spec k0 k); simpl; [exact Hm|].
    constructor; [|apply IH; exact Hm'].
    intros Hin. destruct (count_type_keys _ _ _ Hin); contradiction.
Qed.

Lemma fold_count_types cs m :
  NoDup (map fst m) ->
  let m' := fold_left (fun m c => count_type (chunk_type_value (chunk_type c)) m) cs m in
  NoDup (map fst m')
  /\ list_sum (map snd m') = list_sum (map snd m) + length cs
  /\ forall k, assoc_get k m'
       = let n := length (filter (fun c => String.eqb (chunk_type_value (chunk_type c)) k) cs) in
         match assoc_get k m with
         | Some a => Some (a + n)
         | None => if n =? 0 then None else Some n
         end.
Proof.
  revert m; induction cs as [|c cs IH]; intros m Hm.
  - simpl. split; [exact Hm|split; [lia|]]. intros k.
    destruct (assoc_get k m); [rewrite Nat.add_0_r|]; reflexivity.
  - simpl. destruct (IH (count_type (chunk_type_value (chunk_type c)) m)
                       (count_type_nodup _ _ Hm)) as [H1 [H2 H3]].
    split; [exact H1|split].
    + rewrite H2, count_type_sum. lia.
    + intros k. rewrite H3, count_type_get.
      destruct (String.eqb_spec k (chunk_type_value (chunk_type c))) as [->|Hne].
      * rewrite String.eqb_refl. simpl.
        destruct (assoc_get (chunk_type_value (chunk_type c)) m); f_equal; lia.
      * rewrite (proj2 (String.eqb_neq _ _)) by congruence. reflexivity.
Qed.

(** [get_chunk_metadata] returns nothing (the empty dict) only for no chunks;
    otherwise its [chunk_types] dict has each type once, its counts add up
    to the number of chunks, and each type is mapped to the number of
    chunks of that type, types with no chunk being absent. *)
Theorem chunk_metadata_types cs :
  match get_chunk_metadata cs with
  | None => cs = []
  | Some st =>
      NoDup (map fst (chunk_types st))
      /\ list_sum (map snd (chunk_types st)) = length cs
      /\ forall k, assoc_get k (chunk_types st)
           = let n := length (filter (fun c => String.eqb (chunk_type_value (chunk_type c)) k) cs) in
             if n =? 0 then None else Some n
  end.
Proof.
  destruct cs as [|c cs]; [reflexivity|].
  unfold get_chunk_metadata. cbv zeta. cbn [chunk_types].
  destruct (fold_count_types (c :: cs) [] (NoDup_nil _)) as [H1 [H2 H3]].
  split; [exact H1|split; [exact H2|]]. intros k. rewrite H3. reflexivity.
Qed.

Lemma fold_min r x :
  fold_left Nat.min r x <= x /\ Forall (fun y => fold_left Nat.min r x <= y) r
  /\ (fold_left Nat.min r x = x \/ In (fold_left Nat.min r x) r).
Proof.
  revert x; induction r as [|y r IH]; intros x; simpl; [split; [lia|split; [constructor|left; reflexivity]]|].
  destruct (IH (Nat.min x y)) as [H1 [H2 H3]].
  split; [lia|split; [constructor; [lia|exact H2]|]].
  destruct H3 as [H3|H3]; [|right; right; exact H3].
  rewrite H3. destruct (Nat.min_spec x y) as [[_ ->]|[_ ->]]; [left|right; left]; reflexivity.
Qed.

Lemma fold_max r x :
  x <= fold_left Nat.max r x /\ Forall (fun y => y <= fold_left Nat.max r x) r
  /\ (fold_left Nat.max r x = x \/ In (fold_left Nat.max r x) r).
Proof.
  revert x; induction r as [|y r IH]; intros x; simpl; [split; [lia|split; [constructor|left; reflexivity]]|].
  destruct (IH (Nat.max x y)) as [H1 [H2 H3]].
  split; [lia|split; [constructor; [lia|exact H2]|]].
  destruct H3 as [H3|H3]; [|right; right; exact H3].
  rewrite H3. destruct (Nat.max_spec x y) as [[_ ->]|[_ ->]]; [right; left|left]; reflexivity.
Qed.

Lemma sum_bounds (xs : list nat) lo hi :
  Forall (fun y => lo <= y <= hi) xs ->
  length xs * lo <= list_sum xs <= length xs * hi.
Proof.
  induction xs as [|x xs IH]; simpl; [lia|]. intros H. inversion H; subst.
  specialize (IH H3). lia.
Qed.

Lemma nat_to_Q_le a b : a <= b -> (nat_to_Q a <= nat_to_Q b)%Q.
Proof. intros H. unfold nat_to_Q. rewrite <- Zle_Qle. lia. Qed.

Lemma nat_to_Q_mul a b : (nat_to_Q (a * b) == nat_to_Q a * nat_to_Q b)%Q.
Proof. unfold nat_to_Q. rewrite Nat2Z.inj_mul, inject_Z_mult. reflexivity. Qed.

Lemma average_bounds (xs : list nat) lo hi :
  xs <> [] -> Forall (fun y => lo <= y <= hi) xs ->
  (nat_to_Q lo <= average xs <= nat_to_Q hi)%Q.
Proof.
  intros Hne Hb. pose proof (sum_bounds xs lo hi Hb) as [Hl Hh].
  assert (Hpos : (0 < nat_to_Q (length xs))%Q).
  { unfold nat_to_Q. change 0%Q with (inject_Z 0). rewrite <- Zlt_Qlt.
    destruct xs; [contradiction|simpl; lia]. }
  unfold average. destruct xs as [|x r]; [contradiction|].
  split.
  - apply Qle_shift_div_l; [exact Hpos|].
    rewrite Qmult_comm, <- nat_to_Q_mul. apply nat_to_Q_le. exact Hl.
  - apply Qle_shift_div_r; [exact Hpos|].
    rewrite Qmult_comm, <- nat_to_Q_mul. apply nat_to_Q_le. exact Hh.
Qed.

(** For a non-empty list, [get_chunk_metadata] reports the number of chunks,
    a minimum and a maximum word count that are word counts of chunks and
    bound every chunk's word count, and an average word count between the
    two. *)
Theorem chunk_metadata_totals cs :
  match get_chunk_metadata cs with
  | None => cs = []
  | Some st =>
      let wc := map (fun c => md_word_count (metadata c)) cs in
      total_chunks st = length cs
      /\ In (min_word_count st) wc /\ In (max_word_count st) wc
      /\ Forall (fun w => min_word_count st <= w <= max_word_count st) wc
      /\ (nat_to_Q (min_word_count st) <= avg_word_count st <= nat_to_Q (max_word_count st))%Q
  end.
Proof.
  destruct cs as [|c cs]; [reflexivity|].
  unfold get_chunk_metadata. cbv zeta. cbn [total_chunks min_word_count max_word_count avg_word_count].
  set (wc := map (fun c0 => md_word_count (metadata c0)) (c :: cs)).
  assert (Hb : Forall (fun w => list_min wc <= w <= list_max wc) wc).
  { unfold wc, list_min, list_max. simpl.
    destruct (fold_min (map (fun c0 => md_word_count (metadata c0)) cs) (md_word_count (metadata c)))
      as [Hm1 [Hm2 _]].
    destruct (fold_max (map (fun c0 => md_word_count (metadata c0)) cs) (md_word_count (metadata c)))
      as [HM1 [HM2 _]].
    constructor; [lia|].
    rewrite Forall_forall in Hm2, HM2 |- *. intros y Hy. split; [apply Hm2|apply HM2]; exact Hy. }
  split; [reflexivity|split; [|split; [|split; [exact Hb|]]]].
  - unfold wc, list_min. simpl.
    destruct (fold_min (map (fun c0 => md_word_count (metadata c0)) cs) (md_word_count (metadata c)))
      as [_ [_ [H|H]]]; [left; symmetry; exact H|right; exact H].
  - unfold wc, list_max. simpl.
    destruct (fold_max (map (fun c0 => md_word_count (metadata c0)) cs) (md_word_count (metadata c)))
      as [_ [_ [H|H]]]; [left; symmetry; exact H|right; exact H].
  - apply average_bounds; [discriminate|exact Hb].
Qed.


Lemma pre_overlap_loop_tagged cfg doc fname ps pos :
  Forall (tagged doc fname) (pre_overlap_loop cfg doc fname ps pos).
Proof.
  revert pos; induction ps as [|p ps IH]; intros pos; simpl; [constructor|].
  destruct (length (strip p) <? min_chunk_size cfg); [apply IH|].
  apply Forall_app. split; [|apply IH].
  destruct (create_chunks_tags cfg (_detect_chunk_type p) doc fname p pos) as [_ H].
  eapply Forall_impl; [|exact H]. unfold tagged. tauto.
Qed.

Lemma apply_overlap_tagged cfg doc fname cs :
  Forall (tagged doc fname) cs -> Forall (tagged doc fname) (_apply_overlap cfg cs).
Proof.
  intros H. unfold _apply_overlap. destruct (length cs <=? 1); [exact H|].
  destruct cs as [|c cs]; [constructor|]. simpl.
  inversion H as [|? ? Hc Hcs]; subst. constructor; [exact Hc|].
  clear H. revert c Hc; induction cs as [|c' cs IH]; intros c Hc; simpl; [constructor|].
  inversion Hcs as [|? ? Hc' Hcs']; subst.
  constructor; [|apply IH; assumption].
  pose proof (overlap_one_shape cfg c c') as E. unfold chunk_shape in E.
  injection E as _ _ _ E1 E2 _. unfold tagged in *. rewrite E1, E2. exact Hc'.
Qed.

Lemma validate_tagged cfg doc fname cs :
  Forall (tagged doc fname) cs ->
  Forall (fun c => tagged doc fname c /\ strip (text c) = text c
                   /\ length (text c) <= max_chunk_size cfg
                   /\ md_final_counts (metadata c) = Some (count_words (text c), length (text c)))
    (_validate_and_cleanup_chunks cfg cs).
Proof.
  induction cs as [|c cs IH]; intros H; simpl; [constructor|].
  inversion H as [|? ? Hc Hcs]; subst.
  destruct (cleanup cfg c) as [c'|] eqn:E; [|apply IH; exact Hcs].
  constructor; [|apply IH; exact Hcs].
  destruct (cleanup_spec _ _ _ E) as (_ & _ & H3 & H4 & H5 & _ & _ & _ & H9 & H10 & _).
  unfold tagged in *. rewrite H9, H10. tauto.
Qed.

(** Every chunk [chunk_text] returns carries the given document id and
    filename, is stripped, is at most [max_chunk_size] characters long and
    records its final word and character counts. *)
Theorem chunk_text_tagged cfg t doc fname :
  Forall (fun c => md_document_id (metadata c) = doc /\ md_filename (metadata c) = fname
                   /\ strip (text c) = text c /\ length (text c) <= max_chunk_size cfg
                   /\ md_final_counts (metadata c) = Some (count_words (text c), length (text c)))
    (chunk_text cfg t doc fname).
Proof.
  rewrite chunk_text_stages.
  eapply Forall_impl; [|apply validate_tagged, apply_overlap_tagged, pre_overlap_loop_tagged].
  unfold tagged. tauto.
Qed.

End ChunkerExtras.

(** * Further properties of the vector service and the processor *)
Module PipelineExtras.
Import Chunker Pipeline Scenarios PipelineScenarios PipelineFacts.

Lemma zip3_in {A B C} (xs : list A) (ys : list B) (zs : list C) x y z :
  In (x, y, z) (zip3 xs ys zs) -> In x xs /\ In y ys /\ In z zs.
Proof.
  revert ys zs; induction xs as [|a xs IH]; intros ys zs; [intros []|].
  destruct ys as [|b ys]; [intros []|]. destruct zs as [|c zs]; [intros []|].
  simpl. intros [H|H].
  - injection H as <- <- <-. auto.
  - destruct (IH _ _ H) as [H1 [H2 H3]]. auto.
Qed.

(** The entries [collection.add] may write all belong to [project] and to
    the document, with metadata from [metas]. *)
Lemma fresh_entries project document chunks metas embs v :
  In v (map (fun '(i, (t, m, e)) => mkVectorEntry project (document, i) t e m)
          (combine (seq 0 (length chunks)) (zip3 chunks metas embs))) ->
  ve_project v = project /\ fst (ve_id v) = document /\ In (ve_metadata v) metas.
Proof.
  rewrite in_map_iff. intros [[i [[t m] e]] [<- Hin]].
  apply in_combine_r, zip3_in in Hin. simpl. tauto.
Qed.

Lemma store_metas_doc now d chunks m :
  In m (map (fun '(i, c) => chunk_vector_meta now d i c)
          (combine (seq 0 (length chunks)) chunks)) ->
  vm_document_id m = doc_id d.
Proof. rewrite in_map_iff. intros [[i c] [<- _]]. reflexivity. Qed.

Lemma filter_none {A} (f : A -> bool) l : (forall x, In x l -> f x = false) -> filter f l = [].
Proof.
  induction l as [|x l IH]; intros H; [reflexivity|]. simpl.
  rewrite (H x (or_introl eq_refl)). apply IH. intros y Hy. apply H. right. exact Hy.
Qed.

Lemma get_or_create_vectors p w :
  vectors (snd (get_or_create_collection p w)) = vectors w
  /\ collections (snd (get_or_create_collection p w))
     = if existsb (Z.eqb p) (collections w) then collections w else collections w ++ [p].
Proof.
  unfold get_or_create_collection, modify. simpl.
  destruct (existsb (Z.eqb p) (collections w)); split; reflexivity.
Qed.

(** [add_document_embeddings] always returns, and only appends entries of
    the project and document, carrying the given metadata. *)
Lemma add_appends embed p doc ch ms w :
  (exists b, fst (add_document_embeddings embed p doc ch ms w) = Ok b)
  /\ exists fresh, vectors (snd (add_document_embeddings embed p doc ch ms w)) = vectors w ++ fresh
     /\ Forall (fun v => ve_project v = p /\ fst (ve_id v) = doc /\ In (ve_metadata v) ms) fresh.
Proof.
  unfold add_document_embeddings.
  destruct (is_nil ch || is_nil ms).
  - split; [exists false; reflexivity|]. exists []. rewrite app_nil_r. split; [reflexivity|constructor].
  - unfold try_except, bind, lift, ret, collection_add, modify, get_or_create_collection.
    simpl. destruct (existsb (Z.eqb p) (collections w)) eqn:Ec; simpl.
    all: destruct (embed ch) as [es|e]; simpl.
    all: split; [eexists; reflexivity|].
    all: first [ exists []; rewrite app_nil_r; split; [reflexivity|constructor]
               | eexists; split; [reflexivity|] ].
    all: apply Forall_forall; intros v Hin; apply filter_In in Hin as [Hin _];
      exact (fresh_entries _ _ _ _ _ _ Hin).
Qed.

Lemma store_appends embed now d chunks w :
  (exists b, fst (_store_embeddings embed now d chunks w) = Ok b)
  /\ exists fresh, vectors (snd (_store_embeddings embed now d chunks w)) = vectors w ++ fresh
     /\ Forall (fun v => ve_project v = project_id d /\ fst (ve_id v) = doc_id d
                         /\ vm_document_id (ve_metadata v) = doc_id d) fresh.
Proof.
  unfold _store_embeddings. destruct (is_nil chunks).
  - split; [exists false; reflexivity|]. exists []. rewrite app_nil_r. split; [reflexivity|constructor].
  - cbv zeta. unfold try_except.
    destruct (add_appends embed (project_id d) (doc_id d) (map text chunks)
                (map (fun '(i, c) => chunk_vector_meta now d i c)
                   (combine (seq 0 (length chunks)) chunks)) w) as [[b Hb] [fresh [Hv Hf]]].
    destruct (add_document_embeddings _ _ _ _ _ w) as [r w'] eqn:E. simpl in Hb, Hv.
    subst r. split; [exists b; reflexivity|]. exists fresh. split; [exact Hv|].
    eapply Forall_impl; [|exact Hf]. simpl. intros v (H1 & H2 & H3).
    split; [exact H1|split; [exact H2|]]. exact (store_metas_doc _ _ _ _ H3).
Qed.

Lemma delete_vectors p doc w :
  fst (delete_document_embeddings p doc w) = Ok true
  /\ vectors (snd (delete_document_embeddings p doc w))
     = filter (fun v => negb (Z.eqb (ve_project v) p
                             && Z.eqb (vm_document_id (ve_metadata v)) doc)) (vectors w).
Proof.
  unfold delete_document_embeddings, bind, get_or_create_collection, modify, ret. simpl.
  destruct (existsb (Z.eqb p) (collections w)); split; reflexivity.
Qed.

(** Storing a document's chunks with [_store_embeddings] and then calling
    [delete_document_embeddings] for its project and id leaves exactly the
    vectors there were before, minus those of that document in that
    project. *)
Theorem store_then_delete embed now d chunks w :
  let w1 := snd (_store_embeddings embed now d chunks w) in
  vectors (snd (delete_document_embeddings (project_id d) (doc_id d) w1))
  = filter (fun v => negb (Z.eqb (ve_project v) (project_id d)
                          && Z.eqb (vm_document_id (ve_metadata v)) (doc_id d)))
      (vectors w).
Proof.
  intros w1. rewrite (proj2 (delete_vectors _ _ _)).
  destruct (store_appends embed now d chunks w) as [_ [fresh [Hv Hf]]].
  unfold w1. rewrite Hv, filter_app, (filter_none _ fresh); [apply app_nil_r|].
  intros v Hin. rewrite Forall_forall in Hf. destruct (Hf v Hin) as (H1 & _ & H3).
  rewrite H1, H3, !Z.eqb_refl. reflexivity.
Qed.

(** When the embedding model raises on non-empty chunks and metadata,
    [add_document_embeddings] returns [False] and writes no vector; the
    project's collection is created if it did not exist. *)
Theorem add_embeddings_model_failure embed p doc chunks metas w e
    (Hc : chunks <> []) (Hm : metas <> []) (He : embed chunks = Err e) :
  let (r, w') := add_document_embeddings embed p doc chunks metas w in
  r = Ok false /\ vectors w' = vectors w
  /\ collections w' = if existsb (Z.eqb p) (collections w) then collections w
                      else collections w ++ [p].
Proof.
  unfold add_document_embeddings.
  replace (is_nil chunks || is_nil metas) with false
    by (destruct chunks; [contradiction|]; destruct metas; [contradiction|reflexivity]).
  unfold try_except, bind, lift, ret, collection_add, modify, get_or_create_collection.
  simpl. rewrite He.
  destruct (existsb (Z.eqb p) (collections w)); simpl; auto.
Qed.

Lemma NoDup_map_inj {A B} (f : A -> B) l :
  (forall x y, f x = f y -> x = y) -> NoDup l -> NoDup (map f l).
Proof.
  intros Hf Hl. induction Hl as [|x l Hx Hl IH]; simpl; constructor; [|exact IH].
  rewrite in_map_iff. intros [y [Hy Hin]]. apply Hf in Hy. subst y. contradiction.
Qed.

Lemma NoDup_combine_fst {A B} (l : list A) (l' : list B) :
  NoDup l -> NoDup (map fst (combine l l')).
Proof.
  revert l'. induction l as [|a l IH]; intros l' Hl; [constructor|].
  destruct l' as [|b l']; [constructor|]. inversion Hl as [|? ? Ha Hl']; subst.
  simpl. constructor; [|apply IH; exact Hl'].
  rewrite in_map_iff. intros [[x y] [Hx Hin]]. simpl in Hx. subst x.
  apply in_combine_l in Hin. contradiction.
Qed.

Lemma fresh_keys_nodup project document chunks metas embs :
  NoDup (map vkey (map (fun '(i, (t, m, e)) => mkVectorEntry project (document, i) t e m)
          (combine (seq 0 (length chunks)) (zip3 chunks metas embs)))).
Proof.
  rewrite map_map.
  replace (map (fun x => vkey (let '(i, (t, m, e)) := x in
                                mkVectorEntry project (document, i) t e m))
             (combine (seq 0 (length chunks)) (zip3 chunks metas embs)))
    with (map (fun i => (project, (document, i)))
             (map fst (combine (seq 0 (length chunks)) (zip3 chunks metas embs)))).
  - apply NoDup_map_inj; [intros x y H; injection H as H; exact H|].
    apply NoDup_combine_fst, seq_NoDup.
  - rewrite map_map. apply map_ext. intros [i [[t m] e]]. reflexivity.
Qed.

Lemma NoDup_map_filter {A B} (g : A -> B) f l :
  NoDup (map g l) -> NoDup (map g (filter f l)).
Proof.
  induction l as [|x l IH]; simpl; intros H; [constructor|].
  inversion H as [|? ? Hx Hl]; subst.
  destruct (f x); simpl; [|apply IH; exact Hl].
  constructor; [|apply IH; exact Hl].
  intros Hin. apply Hx. rewrite in_map_iff in Hin |- *.
  destruct Hin as [y [Hy Hin]]. exists y. split; [exact Hy|].
  apply filter_In in Hin. apply Hin.
Qed.

(** If no two vector entries share a collection and chunk id, this stays so
    after [add_document_embeddings] and after [delete_document_embeddings]. *)
Theorem vector_keys_unique embed p doc chunks metas w :
  NoDup (map vkey (vectors w)) ->
  NoDup (map vkey (vectors (snd (add_document_embeddings embed p doc chunks metas w))))
  /\ NoDup (map vkey (vectors (snd (delete_document_embeddings p doc w)))).
Proof.
  intros Hw. split.
  2: { rewrite (proj2 (delete_vectors _ _ _)). apply NoDup_map_filter. exact Hw. }
  unfold add_document_embeddings.
  destruct (is_nil chunks || is_nil metas); [exact Hw|].
  unfold try_except, bind, lift, ret, collection_add, modify, get_or_create_collection.
  simpl. destruct (existsb (Z.eqb p) (collections w)); simpl;
  destruct (embed chunks) as [es|e]; simpl; try exact Hw.
  all: rewrite map_app; apply NoDup_app; [exact Hw| |].
  all: try (apply NoDup_map_filter; apply fresh_keys_nodup).
  all: intros k Hk1 Hk2; apply in_map_iff in Hk1 as [u [Hu Hinu]];
    apply in_map_iff in Hk2 as [v [Hv Hinv]]; apply filter_In in Hinv as [Hinv Hf];
    destruct (fresh_entries _ _ _ _ _ _ Hinv) as [Hp _];
    apply negb_true_iff in Hf; rewrite <- not_true_iff_false in Hf; apply Hf;
    apply existsb_exists; exists u; split; [exact Hinu|];
    unfold vkey in Hu, Hv; rewrite <- Hv in Hu; injection Hu as Hu1 Hu2;
    rewrite Hu1, Hp, Hu2, Z.eqb_refl, Z.eqb_refl, Nat.eqb_refl; reflexivity.
Qed.

Lemma NoDup_snoc {A} (l : list A) x : NoDup l -> ~ In x l -> NoDup (l ++ [x]).
Proof.
  intros Hl Hx. apply NoDup_app; [exact Hl|repeat constructor; intros []|].
  intros a Ha [E|[]]. subst a. contradiction.
Qed.

(** The processor's bookkeeping (no id twice in [current_tasks] or among the
    created tasks, every created task registered) is kept by a step of
    [_processing_loop], by [queue_document_for_processing] and by running
    the next created task. *)
Theorem processor_tasks_ok pdf docx analyze embed now id prio w :
  tasks_ok w ->
  tasks_ok (snd (processing_loop_step w))
  /\ tasks_ok (snd (queue_document_for_processing now id prio w))
  /\ tasks_ok (snd (run_next_task pdf docx analyze embed now w)).
Proof.
  intros [Hct [Hsp Hin]]. split; [|split].
  - unfold processing_loop_step. destruct (queue w) as [|j q]; [split; auto|].
    destruct (existsb (Z.eqb (job_document_id j)) (current_tasks w)) eqn:E;
      simpl; [split; auto|].
    assert (Hn : ~ In (job_document_id j) (current_tasks w)).
    { intros H. rewrite <- not_true_iff_false in E. apply E. apply existsb_exists.
      exists (job_document_id j). split; [exact H|apply Z.eqb_refl]. }
    split; [apply NoDup_snoc; assumption|split].
    + apply NoDup_snoc; [exact Hsp|]. intros H. apply Hn, Hin, H.
    + intros x Hx. apply in_app_or in Hx as [Hx|Hx]; apply in_or_app; [left; apply Hin, Hx|right; exact Hx].
  - split; auto.
  - unfold run_next_task. destruct (spawned w) as [|k rest] eqn:Es.
    { simpl. unfold tasks_ok. rewrite Es. split; [exact Hct|split; [constructor|intros x []]]. }
    unfold _process_document, process_document_with, bind, enter_get_async_session, throw.
    simpl. inversion Hsp; subst.
    split; [exact Hct|split; [assumption|]].
    intros x Hx. apply Hin. right. exact Hx.
Qed.

Lemma find_doc_other id' x ds :
  doc_id x <> id' -> find_doc id' (map (replace_doc x) ds) = find_doc id' ds.
Proof.
  intros Hx. induction ds as [|y ds IH]; [reflexivity|].
  unfold find_doc in *. simpl. unfold replace_doc.
  destruct (Z.eqb_spec (doc_id y) (doc_id x)) as [Ey|Ey].
  - rewrite (proj2 (Z.eqb_neq _ _) Hx). rewrite Ey, (proj2 (Z.eqb_neq _ _) Hx). exact IH.
  - destruct (Z.eqb (doc_id y) id'); [reflexivity|exact IH].
Qed.

Lemma store_world em now d chunks w :
  exists cs fresh, snd (_store_embeddings em now d chunks w)
    = mkWorld (docs w) cs (vectors w ++ fresh) (history w) (queue w) (current_tasks w) (spawned w)
  /\ Forall (fun v => ve_project v = project_id d /\ fst (ve_id v) = doc_id d
                      /\ vm_document_id (ve_metadata v) = doc_id d) fresh.
Proof.
  destruct (store_appends em now d chunks w) as [_ [fresh [Hv Hf]]].
  exists (collections (snd (_store_embeddings em now d chunks w))), fresh.
  split; [|exact Hf]. rewrite <- Hv. clear Hv Hf.
  unfold _store_embeddings, add_document_embeddings, try_except, bind, lift, ret,
    collection_add, get_or_create_collection, modify.
  destruct w; simpl.
  destruct (is_nil chunks); [reflexivity|]. simpl.
  destruct (is_nil (map text chunks) || is_nil _); [reflexivity|]. simpl.
  destruct (existsb _ _); simpl; destruct (em (map text chunks)); reflexivity.
Qed.

Ltac open_run_frame Hfind :=
  unfold process_in_session, try_finally, try_except, process_try, bind, _get_document,
    analysis_step, _chunk_text, commit, modify, lift, ret, throw,
    remove_current_task, process_except, _extract_text;
  rewrite Hfind; cbn -[chunk_text find_doc replace_doc extract_outcome _store_embeddings];
  rewrite extract_outcome_status.

Ltac step_frame := cbn -[chunk_text find_doc replace_doc _store_embeddings];
  repeat (rewrite find_doc_replace by (found || reflexivity);
          cbn -[chunk_text find_doc replace_doc _store_embeddings]).

Ltac run_store :=
  match goal with
  | |- context [_store_embeddings ?a ?b ?c ?ch ?w0] =>
      let cs := fresh "cs" in let fr := fresh "fr" in let Ew := fresh "Ew" in
      let Hf := fresh "Hf" in let bb := fresh "bb" in let Hb := fresh "Hb" in
      let p := fresh "p" in
      destruct (store_world a b c ch w0) as (cs & fr & Ew & Hf);
      destruct (proj1 (store_appends a b c ch w0)) as [bb Hb];
      set (p := _store_embeddings a b c ch w0) in *; clearbody p;
      destruct p as [? ?]; simpl in Ew, Hb; subst
  end.

Ltac close_frame :=
  split; [reflexivity|]; split; [reflexivity|]; split; [reflexivity|];
  split; [intros id' Hne; repeat rewrite find_doc_other by (simpl; congruence); reflexivity|];
  first [ exists []; rewrite app_nil_r; split; [reflexivity|constructor]
        | eexists; split; [rewrite <- ?app_assoc; reflexivity|];
          eapply Forall_impl; [|eassumption]; simpl; tauto ].

(** A run of the [_process_document] body for one document leaves the queue
    and the created tasks unchanged, removes only that id from
    [current_tasks], leaves every other document's row unchanged, and only
    appends vectors whose metadata names that document. *)
Theorem process_run_frame pdf docx an em now id w :
  let w' := snd (process_in_session pdf docx an em now id w) in
  queue w' = queue w /\ spawned w' = spawned w
  /\ current_tasks w' = filter (fun k => negb (Z.eqb k id)) (current_tasks w)
  /\ (forall id', id' <> id -> find_doc id' (docs w') = find_doc id' (docs w))
  /\ exists fresh, vectors w' = vectors w ++ fresh
       /\ Forall (fun v => vm_document_id (ve_metadata v) = id) fresh.
Proof.
  destruct (find_doc id (docs w)) as [d|] eqn:Hfind.
  - pose proof (find_doc_id _ _ _ Hfind) as Hid. subst id.
    open_run_frame Hfind.
    destruct (extract_outcome pdf docx d) as [[txt pages]|e]; step_frame; [|close_frame].
    destruct (an txt (original_filename d)) as [a|e]; step_frame;
    destruct (is_nil txt); step_frame; try close_frame;
    run_store; destruct bb; step_frame; try close_frame.
  - unfold process_in_session, try_finally, try_except, process_try, bind, _get_document,
      remove_current_task, modify, ret.
    rewrite Hfind. simpl. close_frame.
Qed.

(** The [try] body of [reprocess_document] returns normally.  For a missing
    document it changes nothing.  For a stored one it deletes that
    document's vectors in its project, resets the row to UPLOADED with no
    extracted text, page count, analysis time or error (keeping
    [is_analyzed] and [analysis_result]), commits UPLOADED and queues the
    document with priority 1. *)
Theorem reprocess_try_effect now id w :
  let (r, w') := reprocess_try now id w in
  r = Ok tt /\
  match find_doc id (docs w) with
  | None => w' = w
  | Some d =>
      vectors w' = filter (fun v => negb (Z.eqb (ve_project v) (project_id d)
                                         && Z.eqb (vm_document_id (ve_metadata v)) id))
                          (vectors w)
      /\ find_doc id (docs w')
         = Some (mkDocument id (project_id d) (filename d) (original_filename d)
                   (file_type d) (file_path d) UPLOADED None None (is_analyzed d)
                   (analysis_result d) None None)
      /\ history w' = history w ++ [(id, UPLOADED)]
      /\ queue w' = queue w ++ [mkJob id 1 now]
      /\ current_tasks w' = current_tasks w /\ spawned w' = spawned w
  end.
Proof.
  unfold reprocess_try, bind, _get_document.
  destruct (find_doc id (docs w)) as [d|] eqn:Hfind; [|split; reflexivity].
  pose proof (find_doc_id _ _ _ Hfind) as Hid. subst id.
  unfold delete_document_embeddings, bind, get_or_create_collection, modify, ret, commit,
    queue_document_for_processing.
  destruct (existsb (Z.eqb (project_id d)) (collections w)); cbn -[find_doc replace_doc];
    (split; [reflexivity|]); rewrite find_doc_replace by (congruence || reflexivity);
    repeat split; reflexivity.
Qed.

Lemma existsb_Zeqb p l : existsb (Z.eqb p) l = true <-> In p l.
Proof.
  rewrite existsb_exists. split.
  - intros [x [Hx E]]. apply Z.eqb_eq in E. subst. exact Hx.
  - intros H. exists p. split; [exact H|apply Z.eqb_refl].
Qed.

Lemma get_or_create_ok p w :
  store_ok w ->
  store_ok (snd (get_or_create_collection p w))
  /\ In p (collections (snd (get_or_create_collection p w))).
Proof.
  unfold get_or_create_collection, modify, store_ok. simpl.
  destruct (existsb (Z.eqb p) (collections w)) eqn:E; simpl; intros H.
  - split; [exact H|]. apply existsb_Zeqb. exact E.
  - split; [|apply in_or_app; right; left; reflexivity].
    eapply Forall_impl; [|exact H]. intros v Hv. apply in_or_app. left. exact Hv.
Qed.

Lemma store_ok_add embed p doc ch ms w :
  store_ok w -> store_ok (snd (add_document_embeddings embed p doc ch ms w)).
Proof.
  intros H. unfold add_document_embeddings.
  destruct (is_nil ch || is_nil ms); [exact H|].
  unfold try_except, bind, lift, ret, collection_add, modify.
  destruct (get_or_create_ok p w H) as (H1 & H2).
  destruct (get_or_create_collection p w) as [r w1]. simpl in *.
  destruct r as [[]|e]; [|exact H1].
  destruct (embed ch) as [es|e]; simpl; [|exact H1].
  unfold store_ok. simpl. apply Forall_app. split; [exact H1|].
  apply Forall_forall. intros v Hin. apply filter_In in Hin as [Hin _].
  apply fresh_entries in Hin as [-> _]. exact H2.
Qed.

Lemma store_ok_delete_doc p doc w :
  store_ok w -> store_ok (snd (delete_document_embeddings p doc w)).
Proof.
  intros H. unfold delete_document_embeddings, bind, modify, ret.
  destruct (get_or_create_ok p w H) as (H1 & _).
  destruct (get_or_create_collection p w) as [r w1]. simpl in *.
  destruct r; simpl; [|exact H1].
  unfold store_ok in *. simpl. rewrite Forall_forall in *.
  intros v Hv. apply filter_In in Hv as [Hv _]. exact (H1 v Hv).
Qed.

Lemma store_ok_delete_project p w :
  store_ok w -> store_ok (snd (delete_project_collection p w)).
Proof.
  unfold delete_project_collection, try_except, ret, store_ok. intros H.
  destruct (existsb (Z.eqb p) (collections w)); simpl; [|exact H].
  rewrite Forall_forall in *. intros v Hv. apply filter_In in Hv as [Hv Hp].
  apply filter_In. split; [exact (H v Hv)|exact Hp].
Qed.

Lemma store_ok_stats p w :
  store_ok w -> store_ok (snd (get_collection_stats p w)).
Proof.
  intros H. unfold get_collection_stats, try_except, bind.
  destruct (get_or_create_ok p w H) as (H1 & _).
  destruct (get_or_create_collection p w) as [r w1]. simpl in *.
  destruct r; exact H1.
Qed.

(** If every vector lies in an existing collection, this stays so after
    [add_document_embeddings], [delete_document_embeddings],
    [delete_project_collection] and [get_collection_stats]. *)
Theorem store_ok_preserved embed p doc ch ms w :
  store_ok w ->
  store_ok (snd (add_document_embeddings embed p doc ch ms w))
  /\ store_ok (snd (delete_document_embeddings p doc w))
  /\ store_ok (snd (delete_project_collection p w))
  /\ store_ok (snd (get_collection_stats p w)).
Proof.
  intros H. split; [apply store_ok_add; exact H|].
  split; [apply store_ok_delete_doc; exact H|].
  split; [apply store_ok_delete_project; exact H|apply store_ok_stats; exact H].
Qed.

Lemma filter_all {A} (f : A -> bool) l : (forall x, In x l -> f x = true) -> filter f l = l.
Proof.
  induction l as [|x l IH]; intros H; [reflexivity|]. simpl.
  rewrite (H x (or_introl eq_refl)), IH; [reflexivity|]. intros y Hy. apply H. right. exact Hy.
Qed.

(** With every vector in an existing collection, [delete_project_collection]
    returns whether the project's collection existed; a following
    [get_collection_stats] recreates the collection empty and reports 0
    chunks, and exactly the vectors of the other projects remain. *)
Theorem delete_project_then_stats p w (H : store_ok w) :
  let (r, w1) := delete_project_collection p w in
  let (s, w2) := get_collection_stats p w1 in
  r = Ok (existsb (Z.eqb p) (collections w))
  /\ s = Ok (0, str "project_" ++ str_Z p)
  /\ In p (collections w2)
  /\ vectors w2 = filter (fun v => negb (Z.eqb (ve_project v) p)) (vectors w).
Proof.
  unfold delete_project_collection, get_collection_stats, try_except, bind, ret,
    get_or_create_collection, modify.
  destruct (existsb (Z.eqb p) (collections w)) eqn:E; simpl.
  - assert (Hn : existsb (Z.eqb p) (filter (fun q => negb (Z.eqb q p)) (collections w)) = false).
    { apply Bool.not_true_iff_false. rewrite existsb_Zeqb, filter_In.
      intros [_ Hq]. rewrite Z.eqb_refl in Hq. discriminate. }
    rewrite Hn. simpl. split; [reflexivity|]. split; [|split].
    + rewrite (filter_none _ _); [reflexivity|].
      intros v Hv. apply filter_In in Hv as [_ Hv].
      destruct (Z.eqb (ve_project v) p); [discriminate|reflexivity].
    + apply in_or_app. right. left. reflexivity.
    + reflexivity.
  - rewrite E. simpl. split; [reflexivity|].
    assert (Hv : forall v, In v (vectors w) -> Z.eqb (ve_project v) p = false).
    { intros v Hv. apply Z.eqb_neq. intros Hp. unfold store_ok in H.
      rewrite Forall_forall in H. pose proof (H v Hv) as Hc. rewrite Hp in Hc.
      apply existsb_Zeqb in Hc. congruence. }
    split; [|split].
    + rewrite (filter_none _ _); [reflexivity|]. exact Hv.
    + apply in_or_app. right. left. reflexivity.
    + symmetry. apply filter_all. intros v Hin. rewrite (Hv v Hin). reflexivity.
Qed.

Lemma add_embeddings_model_failure_witness :
  (str "notes" :: [] <> [] /\ sample_meta 0 :: [] <> []
   /\ embed_raising [str "notes"] = Err (Exn "RuntimeError" (str "out of memory")))
  /\ let (r, w') := add_document_embeddings embed_raising 2 7 [str "notes"] [sample_meta 0]
                      uploaded_world in
     r = Ok false /\ vectors w' = vectors uploaded_world
     /\ collections w' = if existsb (Z.eqb 2) (collections uploaded_world)
                         then collections uploaded_world
                         else collections uploaded_world ++ [2%Z].
Proof.
  split; [split; [discriminate|split; [discriminate|reflexivity]]|].
  apply (add_embeddings_model_failure embed_raising 2 7 [str "notes"] [sample_meta 0]
           uploaded_world (Exn "RuntimeError" (str "out of memory"))).
  - discriminate.
  - discriminate.
  - reflexivity.
Defined.

Lemma vector_keys_unique_witness :
  NoDup (map vkey (vectors analyzed_world))
  /\ NoDup (map vkey (vectors (snd (add_document_embeddings embed_ok 1 7
                                      [str "notes"; str "more notes"; str "new"]
                                      [sample_meta 0; sample_meta 1; sample_meta 2]
                                      analyzed_world))))
  /\ NoDup (map vkey (vectors (snd (delete_document_embeddings 1 7 analyzed_world)))).
Proof.
  assert (H : NoDup (map vkey (vectors analyzed_world))).
  { simpl. constructor; [intros [H|[]]; discriminate|].
    constructor; [intros []|constructor]. }
  split; [exact H|].
  exact (vector_keys_unique embed_ok 1 7 [str "notes"; str "more notes"; str "new"]
           [sample_meta 0; sample_meta 1; sample_meta 2] analyzed_world H).
Defined.

Lemma processor_tasks_ok_witness :
  tasks_ok busy_world
  /\ tasks_ok (snd (processing_loop_step busy_world))
  /\ tasks_ok (snd (queue_document_for_processing 5 8 1 busy_world))
  /\ tasks_ok (snd (run_next_task (pdf_returning (str "notes")) docx_raising analyze_ok
                      embed_ok 5 busy_world)).
Proof.
  assert (H : tasks_ok busy_world).
  { unfold tasks_ok. simpl. split; [constructor; [intros []|constructor]|].
    split; [constructor; [intros []|constructor]|]. intros x Hx. exact Hx. }
  split; [exact H|].
  exact (processor_tasks_ok (pdf_returning (str "notes")) docx_raising analyze_ok embed_ok 5
           8 1 busy_world H).
Defined.

Lemma store_ok_preserved_witness :
  store_ok analyzed_world
  /\ store_ok (snd (add_document_embeddings embed_ok 2 9 [str "x"] [sample_meta 0] analyzed_world))
  /\ store_ok (snd (delete_document_embeddings 2 9 analyzed_world))
  /\ store_ok (snd (delete_project_collection 2 analyzed_world))
  /\ store_ok (snd (get_collection_stats 2 analyzed_world)).
Proof.
  assert (H : store_ok analyzed_world).
  { unfold store_ok. apply Forall_forall. simpl. intros v [<-|[<-|[]]]; left; reflexivity. }
  split; [exact H|].
  exact (store_ok_preserved embed_ok 2 9 [str "x"] [sample_meta 0] analyzed_world H).
Defined.

Lemma delete_project_then_stats_witness :
  store_ok analyzed_world
  /\ let (r, w1) := delete_project_collection 1 analyzed_world in
     let (s, w2) := get_collection_stats 1 w1 in
     r = Ok (existsb (Z.eqb 1) (collections analyzed_world))
     /\ s = Ok (0, str "project_" ++ str_Z 1)
     /\ In 1%Z (collections w2)
     /\ vectors w2 = filter (fun v => negb (Z.eqb (ve_project v) 1)) (vectors analyzed_world).
Proof.
  assert (H : store_ok analyzed_world).
  { unfold store_ok. apply Forall_forall. simpl. intros v [<-|[<-|[]]]; left; reflexivity. }
  split; [exact H|].
  exact (delete_project_then_stats 1 analyzed_world H).
Defined.

End PipelineExtras.

(** * Further properties of the retrieval service *)
Module RetrievalExtras.
Import Retrieval RetrievalFacts Scenarios RetrievalScenarios.

Lemma fold_Qplus_nonneg (l : list Q) (a : Q) :
  (0 <= a)%Q -> Forall (fun x => 0 <= x)%Q l -> (0 <= fold_left Qplus l a)%Q.
Proof.
  revert a; induction l as [|x l IH]; intros a Ha Hl; simpl; [exact Ha|].
  inversion Hl as [|? ? Hx Hl']; subst. apply IH; [|exact Hl']. cbv beta in Hx. lra.
Qed.

Lemma confidence_le_1 cs : (_calculate_confidence_score cs <= 1)%Q.
Proof.
  unfold _calculate_confidence_score. destruct cs; [discriminate|]. apply Q.le_min_r.
Qed.

Lemma confidence_nonneg cs :
  Forall (fun c => 0 <= cc_similarity_score c)%Q cs -> (0 <= _calculate_confidence_score cs)%Q.
Proof.
  intros H. unfold _calculate_confidence_score. destruct cs as [|c cs]; [apply Qle_refl|].
  set (n := inject_Z (Z.of_nat (length (c :: cs)))).
  assert (Hn : (0 < n)%Q).
  { unfold n. change 0%Q with (inject_Z 0). rewrite <- Zlt_Qlt. simpl. lia. }
  assert (Hs : (0 <= fold_left Qplus (map cc_similarity_score (c :: cs)) 0)%Q).
  { apply fold_Qplus_nonneg; [apply Qle_refl|]. apply Forall_map. exact H. }
  assert (Ha : (0 <= fold_left Qplus (map cc_similarity_score (c :: cs)) 0 / n)%Q).
  { apply Qle_shift_div_l; [exact Hn|]. lra. }
  assert (Hb : (0 <= Qmin (n / 5) 1)%Q).
  { apply Q.min_glb; [|lra]. apply Qle_shift_div_l; [lra|]. lra. }
  apply Q.min_glb; [|lra].
  assert (H7 : (0 <= fold_left Qplus (map cc_similarity_score (c :: cs)) 0 / n * (7 # 10))%Q)
    by (apply Qmult_le_0_compat; [exact Ha|unfold Qle; simpl; lia]).
  assert (H3 : (0 <= Qmin (n / 5) 1 * (3 # 10))%Q)
    by (apply Qmult_le_0_compat; [exact Hb|unfold Qle; simpl; lia]).
  lra.
Qed.

(** [_calculate_confidence_score] is 0 for no chunks and never above 1, and
    for the chunks [retrieve_context] returns it lies between 0 and 1. *)
Theorem confidence_score_bounds (validate_int : MetaValue -> result Z)
    (search : Z -> pystr -> nat -> SearchResults) (p : Z) (q : pystr) (n : nat) :
  _calculate_confidence_score [] = 0%Q
  /\ (forall cs, (_calculate_confidence_score cs <= 1)%Q)
  /\ (0 <= _calculate_confidence_score (retrieve_context validate_int search p q n) <= 1)%Q.
Proof.
  split; [reflexivity|]. split; [exact confidence_le_1|].
  split; [|apply confidence_le_1].
  apply confidence_nonneg. apply Forall_forall. intros c Hin.
  unfold retrieve_context in Hin.
  destruct (retrieve_entries validate_int search p q n) as [H|[H|[e [H _]]]];
    rewrite H in Hin; [destruct Hin| |destruct Hin].
  destruct (to_context_chunks validate_int _) as [cs|] eqn:Hcs; [|destruct Hin].
  destruct (to_context_chunks_sound _ _ _ _ Hcs Hin) as (t & m & d & _ & _ & _ & _ & _ & Hc).
  rewrite Hc. apply Q.le_max_l.
Qed.

Lemma split_lines_nonnil s : split_lines s <> [].
Proof.
  destruct s as [|c r]; simpl; [discriminate|].
  destruct (Ascii.eqb c _); [discriminate|]. destruct (split_lines r); discriminate.
Qed.

Lemma split_lines_app p s :
  ~ In "010"%char p ->
  split_lines (p ++ "010"%char :: s) = p :: split_lines s.
Proof.
  induction p as [|c p IH]; intros Hp; [reflexivity|].
  simpl. destruct (Ascii.eqb_spec c "010"%char) as [E|E].
  - exfalso. apply Hp. left. exact E.
  - rewrite IH; [reflexivity|]. intros H. apply Hp. right. exact H.
Qed.

Lemma split_lines_single p : ~ In "010"%char p -> split_lines p = [p].
Proof.
  induction p as [|c p IH]; intros Hp; [reflexivity|].
  simpl. destruct (Ascii.eqb_spec c "010"%char) as [E|E].
  - exfalso. apply Hp. left. exact E.
  - rewrite IH; [reflexivity|]. intros H. apply Hp. right. exact H.
Qed.

Lemma split_join_lines ps :
  ps <> [] -> Forall (fun p => ~ In "010"%char p) ps -> split_lines (join_lines ps) = ps.
Proof.
  induction ps as [|p ps IH]; intros Hne Hf; [contradiction|].
  inversion Hf as [|? ? Hp Hps]; subst.
  destruct ps as [|q ps].
  - simpl. apply split_lines_single. exact Hp.
  - change (join_lines (p :: q :: ps)) with (p ++ "010"%char :: join_lines (q :: ps)).
    rewrite split_lines_app by exact Hp. rewrite IH; [reflexivity|discriminate|exact Hps].
Qed.

Lemma nat_digits_digit f n c : In c (nat_digits f n) -> exists k, k < 10 /\ c = digit_char k.
Proof.
  revert n; induction f as [|f IH]; intros n; simpl; [intros []|].
  destruct (n <? 10) eqn:E.
  - intros [<-|[]]. exists n. split; [apply Nat.ltb_lt; exact E|reflexivity].
  - rewrite in_app_iff. intros [H|[<-|[]]]; [exact (IH _ H)|].
    exists (n mod 10). split; [apply Nat.mod_upper_bound; lia|reflexivity].
Qed.

Lemma digit_not_newline k : k < 10 -> digit_char k <> "010"%char.
Proof.
  intros Hk. do 10 (destruct k as [|k]; [discriminate|]). lia.
Qed.

Lemma str_nat_no_newline n : ~ In "010"%char (str_nat n).
Proof.
  intros H. destruct (nat_digits_digit _ _ _ H) as [k [Hk E]].
  exact (digit_not_newline k Hk (eq_sym E)).
Qed.

Lemma str_Z_no_newline z : ~ In "010"%char (str_Z z).
Proof.
  unfold str_Z. destruct (z <? 0)%Z.
  - intros [H|H]; [discriminate|exact (str_nat_no_newline _ H)].
  - apply str_nat_no_newline.
Qed.

Lemma header_no_newline i c : ~ In "010"%char (section_header i c).
Proof.
  unfold section_header. rewrite !in_app_iff.
  intros [H|[H|[H|[H|H]]]].
  - simpl in H. repeat (destruct H as [H|H]; [discriminate|]). exact H.
  - exact (str_Z_no_newline _ H).
  - simpl in H. repeat (destruct H as [H|H]; [discriminate|]). exact H.
  - exact (str_nat_no_newline _ H).
  - simpl in H. repeat (destruct H as [H|H]; [discriminate|]). exact H.
Qed.

Lemma context_parts_lines i chunks :
  (forall c, In c chunks -> ~ In "010"%char (cc_chunk_text c)) ->
  Forall (fun p => ~ In "010"%char p) (context_parts i chunks).
Proof.
  revert i; induction chunks as [|c r IH]; intros i H; simpl; [constructor|].
  constructor; [apply header_no_newline|].
  constructor; [apply H; left; reflexivity|].
  constructor; [intros []|].
  apply IH. intros c' Hc'. apply H. right. exact Hc'.
Qed.

(** For no chunks [_format_context_chunks] returns the empty string.  For a
    non-empty list of chunks none of whose texts contains a newline,
    splitting its output at newlines gives back, for each chunk in order,
    its header [[Documento id - Sezione i]] with [i] counting from 1, its
    text and an empty line. *)
Theorem format_context_split :
  _format_context_chunks [] = []
  /\ forall chunks,
       chunks <> [] ->
       (forall c, In c chunks -> ~ In "010"%char (cc_chunk_text c)) ->
       split_lines (_format_context_chunks chunks) = context_parts 1 chunks.
Proof.
  split; [reflexivity|].
  intros chunks Hne Hnl.
  destruct chunks as [|c r]; [contradiction|].
  apply split_join_lines; [discriminate|]. apply context_parts_lines. exact Hnl.
Qed.


Lemma format_context_split_witness :
  _format_context_chunks [] = []
  /\ (sample_context <> []
      /\ forall c, In c sample_context -> ~ In "010"%char (cc_chunk_text c))
  /\ split_lines (_format_context_chunks sample_context) = context_parts 1 sample_context.
Proof.
  assert (Hne : sample_context <> []) by discriminate.
  assert (Hnl : forall c, In c sample_context -> ~ In "010"%char (cc_chunk_text c)).
  { intros c [<-|[<-|[]]]; simpl; intros H; repeat (destruct H as [H|H]; [discriminate|]);
      exact H. }
  destruct format_context_split as [Hempty Hsplit].
  split; [exact Hempty|].
  split; [split; [exact Hne|exact Hnl]|].
  exact (Hsplit sample_context Hne Hnl).
Defined.

End RetrievalExtras.
